(** * stake-update-go: the nonce reconciliation loop of [main.go]

    A shallow embedding of [main.go] and the properties of its poll loop.

    The program is one sequential loop around four I/O helpers.  Every
    function of [main.go] is translated to a function of the same name in a
    small writer-and-outcome monad [M]: the writer part records the
    observable events of a run (lines printed, requests sent, the subprocess
    started, sleeps), the outcome part distinguishes a normal return from a
    runtime panic and from [os.Exit].  What the outside world answers (HTTP
    replies, the clock, the exit status of [heimdallcli]) is read from an
    explicit environment record.

    Go's [int] is 64 bits wide on the platforms the tool is built for; it is
    modelled as [Z] with the wrap-around written out.  An instant is
    modelled as package [time] stores it, in the two words [wall] and [ext],
    with the 64-bit arithmetic of [Unix], [Add] and [Sub]. *)

From Stdlib Require Import ZArith List String Ascii Bool Lia.
From Stdlib Require Import DecimalString DecimalPos.
Import ListNotations.

Local Open Scope string_scope.
Local Open Scope list_scope.
Local Open Scope Z_scope.

(* ===================================================================== *)
(** ** Go's machine integers *)
(* ===================================================================== *)

Module GoInt.

Definition minInt : Z := - 2 ^ 63.
Definition maxInt : Z := 2 ^ 63 - 1.

(** The values an [int] variable can hold. *)
Definition is_int (z : Z) : Prop := minInt <= z <= maxInt.


(** Two's complement reduction of a mathematical integer to 64 bits. *)
Definition wrap (z : Z) : Z := (z + 2 ^ 63) mod 2 ^ 64 - 2 ^ 63.

(** [a + b] on [int]. *)
Definition add (a b : Z) : Z := wrap (a + b).

(** [a - b] on [int64]. *)
Definition sub (a b : Z) : Z := wrap (a - b).

(** [a * b] on [int64] (also on [time.Duration]). *)
Definition mul (a b : Z) : Z := wrap (a * b).

(** The values a [uint64] can hold. *)
Definition is_uint64 (u : Z) : Prop := 0 <= u < 2 ^ 64.

(** The conversion [int64(u)] of a [uint64]. *)
Definition of_uint64 (u : Z) : Z := wrap u.

(** Saturation to the [int64] range. *)
Definition saturate (z : Z) : Z :=
  if z <? minInt then minInt else if maxInt <? z then maxInt else z.

End GoInt.

(* ===================================================================== *)
(** ** Errors, printed values, events and the monad of runs *)
(* ===================================================================== *)

Inductive NumErrKind : Type := ErrSyntax | ErrRange.

(** The [error] values that can flow through [main.go].  [NumError] is
    [*strconv.NumError]; [InvalidBlockNumber] is the value built by
    [fmt.Errorf("invalid block number: %s", blockNumber)]; [External] stands
    for an error made by a collaborator (net/http, encoding/json, ethclient,
    os/exec), of which the program only ever tests [err != nil]. *)
Inductive error : Type :=
| NumError (Func Num : string) (Err : NumErrKind)
| InvalidBlockNumber (blockNumber : string)
| External (msg : string).

(** An operand of [fmt.Println] or [log.Fatal]. *)
Inductive Value : Type :=
| VString (s : string)
| VInt (n : Z)
| VError (e : error).

(** Observable actions of the process, in program order. *)
Inductive Event : Type :=
| EvLoadEnv (file : string)
| EvDial (url : string)
| EvPrintln (operands : list Value)
| EvLogFatal (operands : list Value)
| EvSleep (d : Z)
| EvHttpGet (url : string)
| EvHttpPost (url : string) (body : list (string * string))
| EvBlockByNumber (number : Z)
| EvExec (name : string) (args : list string).

(** How a piece of Go code stops: it returns, it panics (the runtime prints
    the message and the process dies with status 2), or it calls [os.Exit]. *)
Inductive Outcome (A : Type) : Type :=
| Normal (a : A)
| Panic (msg : string)
| OsExit (code : Z).

Arguments Normal {A} a.
Arguments Panic {A} msg.
Arguments OsExit {A} code.

Definition M (A : Type) : Type := (list Event * Outcome A)%type.

Definition ret {A} (a : A) : M A := ([], Normal a).

Definition bind {A B} (m : M A) (k : A -> M B) : M B :=
  match m with
  | (t, Normal a) => let (t', o) := k a in (t ++ t', o)
  | (t, Panic msg) => (t, Panic msg)
  | (t, OsExit c) => (t, OsExit c)
  end.

Definition emit (e : Event) : M unit := ([e], Normal tt).

Definition panic {A} (msg : string) : M A := ([], Panic msg).

Definition trace {A} (m : M A) : list Event := fst m.
Definition outcome {A} (m : M A) : Outcome A := snd m.

Declare Scope go_scope.
Delimit Scope go_scope with go.
Notation "x <- m ;; k" := (bind m (fun x => k))
  (at level 61, m at next level, right associativity) : go_scope.
Notation "m ;; k" := (bind m (fun _ => k))
  (at level 61, right associativity) : go_scope.
Notation "' pat <- m ;; k" := (bind m (fun x => match x with pat => k end))
  (at level 61, pat pattern, m at next level, right associativity) : go_scope.
Local Open Scope go_scope.

(** [fmt.Println(operands...)]. *)
Definition fmt_Println (operands : list Value) : M unit :=
  emit (EvPrintln operands).

(** [log.Fatal(operands...)]: prints, then [os.Exit(1)]. *)
Definition log_Fatal {A} (operands : list Value) : M A :=
  ([EvLogFatal operands], OsExit 1).

(** [time.Sleep(d)]. *)
Definition time_Sleep (d : Z) : M unit := emit (EvSleep d).

(* ===================================================================== *)
(** ** strconv and math/big: decimal integers *)
(* ===================================================================== *)

Module strconv.

Definition digit (c : ascii) : option Z :=
  let n := Z.of_nat (nat_of_ascii c) in
  if (48 <=? n) && (n <=? 57) then Some (n - 48) else None.

(** Left-to-right accumulation of decimal digits: [n = n*10 + ch]. *)
Fixpoint digits (acc : Z) (s : string) : option Z :=
  match s with
  | EmptyString => Some acc
  | String c rest =>
      match digit c with
      | Some d => digits (acc * 10 + d) rest
      | None => None
      end
  end.

(** An optional sign followed by at least one decimal digit and nothing
    else: the syntax both [strconv.Atoi] and [SetString(s, 10)] of [big.Int]
    accept.  The result is the mathematical value. *)
Definition signed_decimal (s : string) : option Z :=
  match s with
  | EmptyString => None
  | String c rest =>
      let body := if (Ascii.eqb c "-" || Ascii.eqb c "+")%bool then rest else s in
      match body with
      | EmptyString => None
      | _ =>
          match digits 0 body with
          | Some n => Some (if Ascii.eqb c "-" then - n else n)
          | None => None
          end
      end
  end.

(** [strconv.Atoi(s)]: the value and the error.  A string that is not a
    signed decimal gives [0] and a syntax error; a value outside [int]
    gives the nearest bound and a range error. *)
Definition Atoi (s : string) : Z * option error :=
  match signed_decimal s with
  | None => (0, Some (NumError "Atoi" s ErrSyntax))
  | Some v =>
      if v <? GoInt.minInt then (GoInt.minInt, Some (NumError "Atoi" s ErrRange))
      else if GoInt.maxInt <? v then (GoInt.maxInt, Some (NumError "Atoi" s ErrRange))
      else (v, None)
  end.

(** [strconv.Itoa(n)]. *)
Definition Itoa (n : Z) : string := NilZero.string_of_int (Z.to_int n).

End strconv.

(** [big.NewInt(0).SetString(s, 10)]: the value, or [None] for [ok = false]. *)
Definition big_SetString10 (s : string) : option Z := strconv.signed_decimal s.

(* ===================================================================== *)
(** ** time *)
(* ===================================================================== *)

Module time.

(** [time.Duration]: a count of nanoseconds in an [int64]. *)
Definition Nanosecond : Z := 1.
Definition Second : Z := 1000000000.
Definition Minute : Z := 60 * Second.

Definition minDuration : Z := - 2 ^ 63.
Definition maxDuration : Z := 2 ^ 63 - 1.

(** The constants of the representation of [Time]. *)
Definition hasMonotonic : Z := 2 ^ 63.
Definition nsecMask : Z := 2 ^ 30 - 1.
Definition nsecShift : Z := 30.
Definition unixToInternal : Z := 62135596800.
Definition wallToInternal : Z := 59453308800.
Definition internalToUnix : Z := - unixToInternal.
Definition minWall : Z := wallToInternal.

(** The conversions [uint64(z)] and [int32(z)]. *)
Definition uint64 (z : Z) : Z := z mod 2 ^ 64.
Definition int32 (z : Z) : Z := (z + 2 ^ 31) mod 2 ^ 32 - 2 ^ 31.

(** An instant, as the package stores it: [wall] is a [uint64] holding the
    [hasMonotonic] flag, 33 bits of seconds since 1885 and 30 bits of
    nanoseconds; [ext] is an [int64] holding the monotonic reading when the
    flag is set, and otherwise the seconds since January 1 of year 1. *)
Record Time : Type := mkTime { wall : Z; ext : Z }.

(** [t.wall&hasMonotonic != 0]. *)
Definition monotonic (t : Time) : bool :=
  negb (Z.land (wall t) hasMonotonic =? 0).

(** [int64(t.wall << 1 >> (nsecShift + 1))]. *)
Definition wallSec (t : Time) : Z :=
  GoInt.of_uint64 (Z.shiftr (uint64 (Z.shiftl (wall t) 1)) (nsecShift + 1)).

(** [t.sec()]: seconds since January 1 of year 1. *)
Definition sec (t : Time) : Z :=
  if monotonic t then GoInt.add wallToInternal (wallSec t) else ext t.

(** [t.nsec()]: nanoseconds within the second. *)
Definition nsec (t : Time) : Z := int32 (Z.land (wall t) nsecMask).

(** [unixTime(sec, nsec)]: the addition of [unixToInternal] is an [int64]
    addition. *)
Definition unixTime (s n : Z) : Time :=
  mkTime (uint64 n) (GoInt.add s unixToInternal).

(** [time.Unix(sec, nsec)], with its normalisation of [nsec]. *)
Definition Unix (s n : Z) : Time :=
  if (n <? 0) || (1000000000 <=? n) then
    let q := Z.quot n 1000000000 in
    let s' := GoInt.add s q in
    let n' := GoInt.sub n (GoInt.mul q 1000000000) in
    if n' <? 0 then unixTime (GoInt.sub s' 1) (int32 (GoInt.add n' 1000000000))
    else unixTime s' (int32 n')
  else unixTime s (int32 n).

(** The method [t.Unix()]: seconds since the Unix epoch. *)
Definition Unix_of (t : Time) : Z := GoInt.add (sec t) internalToUnix.

(** [t.stripMono()]. *)
Definition stripMono (t : Time) : Time :=
  if monotonic t then mkTime (Z.land (wall t) nsecMask) (sec t) else t.

(** The end of [t.addSec(d)]: the addition on [ext], stopped at the ends of
    the [int64] range. *)
Definition addSec_ext (t : Time) (d : Z) : Time :=
  let sum := GoInt.add (ext t) d in
  if Bool.eqb (sum >? ext t) (d >? 0) then mkTime (wall t) sum
  else if d >? 0 then mkTime (wall t) (2 ^ 63 - 1)
  else mkTime (wall t) (- (2 ^ 63 - 1)).

(** [t.addSec(d)]. *)
Definition addSec (t : Time) (d : Z) : Time :=
  if monotonic t then
    let dsec := GoInt.add (wallSec t) d in
    if (0 <=? dsec) && (dsec <=? 2 ^ 33 - 1) then
      mkTime (Z.lor (Z.lor (Z.land (wall t) nsecMask)
                       (uint64 (Z.shiftl (uint64 dsec) nsecShift)))
                hasMonotonic)
             (ext t)
    else addSec_ext (stripMono t) d
  else addSec_ext t d.

(** [t.Add(d)]. *)
Definition Add (t : Time) (d : Z) : Time :=
  let dsec0 := Z.quot d 1000000000 in
  let nsec0 := int32 (nsec t + int32 (Z.rem d 1000000000)) in
  let dsec := if 1000000000 <=? nsec0 then GoInt.add dsec0 1
              else if nsec0 <? 0 then GoInt.sub dsec0 1 else dsec0 in
  let nsec1 := if 1000000000 <=? nsec0 then int32 (nsec0 - 1000000000)
               else if nsec0 <? 0 then int32 (nsec0 + 1000000000) else nsec0 in
  let t1 := mkTime (Z.lor (Z.ldiff (wall t) nsecMask) (uint64 nsec1)) (ext t) in
  let t2 := addSec t1 dsec in
  if monotonic t2 then
    let te := GoInt.add (ext t2) d in
    if ((d <? 0) && (te >? ext t2)) || ((d >? 0) && (te <? ext t2)) then stripMono t2
    else mkTime (wall t2) te
  else t2.

(** [t.wall&u.wall&hasMonotonic != 0]. *)
Definition both_monotonic (t u : Time) : bool :=
  negb (Z.land (Z.land (wall t) (wall u)) hasMonotonic =? 0).

(** [t.Equal(u)]. *)
Definition Equal (t u : Time) : bool :=
  if both_monotonic t u then ext t =? ext u
  else (sec t =? sec u) && (nsec t =? nsec u).

(** [t.Before(u)]. *)
Definition Before (t u : Time) : bool :=
  if both_monotonic t u then ext t <? ext u
  else (sec t <? sec u) || ((sec t =? sec u) && (nsec t <? nsec u)).

(** [subMono(t, u)]. *)
Definition subMono (t u : Z) : Z :=
  let d := GoInt.sub t u in
  if (d <? 0) && (t >? u) then maxDuration
  else if (d >? 0) && (t <? u) then minDuration
  else d.

(** [t.Sub(u)]: the duration [t - u] computed on the stored seconds, or the
    largest (smallest) duration when adding it back to [u] does not give
    [t]. *)
Definition Sub (t u : Time) : Z :=
  if both_monotonic t u then subMono (ext t) (ext u)
  else
    let d := GoInt.add (GoInt.mul (GoInt.sub (sec t) (sec u)) Second)
                       (int32 (nsec t - nsec u)) in
    if Equal (Add u d) t then d
    else if Before t u then minDuration
    else maxDuration.

(** [time.Now()], from what the runtime reads: the wall clock at second [s]
    of the Unix epoch and nanosecond [n], and the monotonic clock at [mono]
    nanoseconds since the process started. *)
Definition Now (s n mono : Z) : Time :=
  let s' := GoInt.add s (unixToInternal - minWall) in
  if negb (Z.shiftr (uint64 s') 33 =? 0) then mkTime (uint64 n) (GoInt.add s' minWall)
  else mkTime (Z.lor (Z.lor hasMonotonic (uint64 (Z.shiftl (uint64 s') nsecShift)))
                 (uint64 n)) mono.

(** What holds of every [Time] the clock can return: [wall] is unsigned,
    the nanoseconds are below one second, and the seconds are not at an end
    of the [int64] range. *)
Definition valid (t : Time) : Prop :=
  0 <= wall t /\ nsec t < 1000000000 /\ - (2 ^ 63 - 1) < sec t < 2 ^ 63 - 1.

End time.

(* ===================================================================== *)
(** ** Data model: the two JSON shapes *)
(* ===================================================================== *)

Module Validator.

(** The [result] object of the destination ledger's reply. *)
Record Result : Type := mkResult {
  ID : Z;
  StartEpoch : Z;
  EndEpoch : Z;
  Nonce : Z;
  Power : Z;
  PubKey : string;
  Signer : string;
  LastUpdated : string;
  Jailed : bool;
  Accum : Z
}.

(** [ValidatorResponse]. *)
Record Response : Type := mkResponse {
  Height : string;
  result : Result;
  Error : string
}.

End Validator.

Module Stake.

(** One element of [StakeUpdateResponse.Data.StakeUpdates]. *)
Record Update : Type := mkUpdate {
  ID : string;
  ValidatorID : string;
  TotalStaked : string;
  Block : string;
  Nonce : string;
  TransactionHash : string;
  LogIndex : string
}.

(** [StakeUpdateResponse], with its [Data] level flattened. *)
Record Response : Type := mkResponse {
  StakeUpdates : list Update
}.

End Stake.

(* ===================================================================== *)
(** ** The outside world *)
(* ===================================================================== *)

(** A byte slice received from the network, represented by what
    [json.Unmarshal] makes of it at the type it is decoded at: either the
    decoder rejects it with an error, or it yields a value. *)
Inductive Bytes (A : Type) : Type :=
| Malformed (e : error)
| Encoding (a : A).

Arguments Malformed {A} e.
Arguments Encoding {A} a.

(** The [nil] slice: [json.Unmarshal] rejects empty input. *)
Definition nil_bytes {A} : Bytes A :=
  Malformed (External "unexpected end of JSON input").

(** [json.Unmarshal(data, &v)]: the error, or the decoded value. *)
Definition json_Unmarshal {A} (data : Bytes A) : error + A :=
  match data with
  | Malformed e => inl e
  | Encoding a => inr a
  end.

(** An [*http.Response]: what reading its body to the end gives. *)
Record http_Response (A : Type) : Type := mkHttpResponse {
  Body : Bytes A * option error
}.

Arguments mkHttpResponse {A} Body.
Arguments Body {A} h.

(** [ioutil.ReadAll(response.Body)]. *)
Definition ioutil_ReadAll {A} (response : http_Response A)
  : Bytes A * option error := Body response.

(** A request body built by [json.Marshal] from a [map[string]string],
    represented by the key-value pairs it serialises. *)
Definition JsonMap : Type := list (string * string).

(** The answers of the collaborators during one phase of the run (the
    startup, or one iteration of the poll loop). *)
Record Env : Type := mkEnv {
  (** [http.NewRequest(method, url, body)]: the error, if any. *)
  http_NewRequest : string -> string -> option error;
  (** [client.Do(request)] on the indexed graph endpoint. *)
  client_Do : string -> JsonMap -> error + http_Response Stake.Response;
  (** [http.Get(url)] on the destination ledger. *)
  http_Get : string -> error + http_Response Validator.Response;
  (** [ethClient.BlockByNumber(ctx, n)]: the error, or [block.Time()], a
      [uint64]. *)
  ethClient_BlockByNumber : Z -> error + Z;
  (** [time.Now()] at the moment [time.Since] is evaluated. *)
  time_Now : time.Time;
  (** [exec.Command(name, args...).Run()]. *)
  cmd_Run : string -> list string -> option error
}.

(** The process environment and the phases of one run. *)
Record World : Type := mkWorld {
  godotenv_Load : string -> option error;
  os_Getenv : string -> string;
  os_Args : list string;
  ethclient_Dial : string -> option error;
  at_startup : Env;
  at_iteration : nat -> Env
}.

(** The package-level variables set by [init]. *)
Record Globals : Type := mkGlobals {
  HeimdallRestUrl : string;
  PolygonSubGraphUrl : string;
  HeimdallChainId : string;
  EthereumRPCUrl : string
}.

(* ===================================================================== *)
(** ** The functions of [main.go] *)
(* ===================================================================== *)

(** [xs[i]]: the element, or the runtime's index panic. *)
Definition index {A} (xs : list A) (i : nat) : M A :=
  match nth_error xs i with
  | Some x => ret x
  | None =>
      panic ("runtime error: index out of range ["
             ++ strconv.Itoa (Z.of_nat i) ++ "] with length "
             ++ strconv.Itoa (Z.of_nat (List.length xs)))%string
  end.

Definition nl : string := String (ascii_of_nat 10) EmptyString.
Definition tab : string := String (ascii_of_nat 9) EmptyString.

(** Line 233. *)
Definition getLatestNonceQuery (validatorId : Z) : JsonMap :=
  [("query",
     (nl
      ++ tab ++ tab ++ "{" ++ nl
      ++ tab ++ tab ++ tab
      ++ "stakeUpdates(first:1, orderBy: nonce, orderDirection : desc, where: {validatorId: "
      ++ strconv.Itoa validatorId ++ "}){" ++ nl
      ++ tab ++ tab ++ tab ++ tab ++ "nonce" ++ nl
      ++ tab ++ tab ++ "   } " ++ nl
      ++ tab ++ tab ++ "}   " ++ nl
      ++ tab ++ tab)%string)].

(** Line 248. *)
Definition getStakeUpdateQuery (validatorId nonce : Z) : JsonMap :=
  [("query",
     (nl
      ++ tab ++ tab ++ "{" ++ nl
      ++ tab ++ tab ++ tab
      ++ "stakeUpdates(where: {validatorId: " ++ strconv.Itoa validatorId
      ++ ", nonce: " ++ strconv.Itoa nonce ++ "}){" ++ nl
      ++ tab ++ tab ++ tab ++ tab ++ "id" ++ nl
      ++ tab ++ tab ++ tab ++ tab ++ "validatorId" ++ nl
      ++ tab ++ tab ++ tab ++ tab ++ "totalStaked" ++ nl
      ++ tab ++ tab ++ tab ++ tab ++ "block" ++ nl
      ++ tab ++ tab ++ tab ++ tab ++ "nonce" ++ nl
      ++ tab ++ tab ++ tab ++ tab ++ "transactionHash" ++ nl
      ++ tab ++ tab ++ tab ++ tab ++ "logIndex" ++ nl
      ++ tab ++ tab ++ "   } " ++ nl
      ++ tab ++ tab ++ "}   " ++ nl
      ++ tab ++ tab)%string)].

(** Line 217.  The request is sent only once it has been built. *)
Definition querySubGraph (env : Env) (grapghUrl : string) (query : JsonMap)
  : M (Bytes Stake.Response * option error) :=
  match http_NewRequest env "POST" grapghUrl with
  | Some err => ret (nil_bytes, Some err)
  | None =>
      emit (EvHttpPost grapghUrl query) ;;
      match client_Do env grapghUrl query with
      | inl err => ret (nil_bytes, Some err)
      | inr response => ret (ioutil_ReadAll response)
      end
  end.

(** The zero [time.Time{}]: January 1, year 1, 00:00:00 UTC. *)
Definition zero_Time : time.Time := time.mkTime 0 0.

(** Line 202. *)
Definition getBlockTime (env : Env) (blockNumber : string)
  : M (time.Time * option error) :=
  match big_SetString10 blockNumber with
  | None => ret (zero_Time, Some (InvalidBlockNumber blockNumber))
  | Some blockBig =>
      emit (EvBlockByNumber blockBig) ;;
      match ethClient_BlockByNumber env blockBig with
      | inl err => ret (zero_Time, Some err)
      | inr block_Time => ret (time.Unix (GoInt.of_uint64 block_Time) 0, None)
      end
  end.

(** [time.Since(t)] is [time.Now().Sub(t)] for a [t] without monotonic
    reading, as [time.Unix] makes them. *)
Definition time_Since (env : Env) (t : time.Time) : Z :=
  time.Sub (time_Now env) t.

Arguments time_Since : simpl never.

(** Line 178. *)
Definition getEthereumValidatorNonce (g : Globals) (env : Env) (validatorId : Z)
  : M (Z * option error) :=
  '(data, err) <- querySubGraph env (PolygonSubGraphUrl g)
                    (getLatestNonceQuery validatorId) ;;
  match err with
  | Some err => ret (0, Some err)
  | None =>
      match json_Unmarshal data with
      | inl err => ret (0, Some err)
      | inr response =>
          if (List.length (Stake.StakeUpdates response) =? 0)%nat then ret (0, None)
          else
            first <- index (Stake.StakeUpdates response) 0 ;;
            let '(latestValidatorNonce, err) := strconv.Atoi (Stake.Nonce first) in
            match err with
            | Some err => ret (0, Some err)
            | None => ret (latestValidatorNonce, None)
            end
      end
  end.

(** Line 152. *)
Definition getHeimdallValidatorNonce (g : Globals) (env : Env) (validatorId : Z)
  : M (Z * option error) :=
  let requestUrl :=
    (HeimdallRestUrl g ++ "/staking/validator/" ++ strconv.Itoa validatorId)%string in
  emit (EvHttpGet requestUrl) ;;
  match http_Get env requestUrl with
  | inl err => ret (0, Some err)
  | inr response =>
      let '(data, err) := ioutil_ReadAll response in
      match err with
      | Some err => ret (0, Some err)
      | None =>
          match json_Unmarshal data with
          | inl err => ret (0, Some err)
          | inr responseData =>
              if negb (String.eqb (Validator.Error responseData) "") then ret (-1, None)
              else ret (Validator.Nonce (Validator.result responseData), None)
          end
      end
  end.

(** The argument vector handed to [exec.Command("heimdallcli", ...)] on
    line 143. *)
Definition heimdallcli_args (stakeUpdate : Stake.Update) (g : Globals) : list string :=
  ["tx"; "staking"; "stake-update";
   "--block-number"; Stake.Block stakeUpdate;
   "--id"; Stake.ValidatorID stakeUpdate;
   "--log-index"; Stake.LogIndex stakeUpdate;
   "--nonce"; Stake.Nonce stakeUpdate;
   "--staked-amount"; Stake.TotalStaked stakeUpdate;
   "--tx-hash"; Stake.TransactionHash stakeUpdate;
   "--chain-id"; HeimdallChainId g].

Definition separator : string :=
  "--------------------------------------------------------------------------------------------------------------------------".

(** Line 114. *)
Definition processStakeUpdate (g : Globals) (env : Env) (validatorId nonce : Z)
  : M (option error) :=
  fmt_Println [VString "Processing stake update for validator : "; VInt validatorId;
               VString " nonce : "; VInt nonce] ;;
  '(data, err) <- querySubGraph env (PolygonSubGraphUrl g)
                    (getStakeUpdateQuery validatorId nonce) ;;
  match err with
  | Some err =>
      fmt_Println [VString "Error getting stake update from subGraph for validator: ";
                   VInt validatorId; VError err] ;;
      ret (Some err)
  | None =>
      match json_Unmarshal data with
      | inl err =>
          fmt_Println [VString "Error unmarshalling stake update for validator: ";
                       VInt validatorId; VError err] ;;
          ret (Some err)
      | inr response =>
          stakeUpdate <- index (Stake.StakeUpdates response) 0 ;;
          '(blockTime, err) <- getBlockTime env (Stake.Block stakeUpdate) ;;
          match err with
          | Some err =>
              fmt_Println [VString "Unable to get block time with err : "; VError err] ;;
              ret (Some err)
          | None =>
              if time_Since env blockTime <? GoInt.mul time.Minute 10 then
                fmt_Println
                  [VString "Block time is less than ten minutes, skipping stake-update"] ;;
                ret None
              else
                fmt_Println (VString "heimdallcli"
                             :: List.map VString (heimdallcli_args stakeUpdate g)) ;;
                emit (EvExec "heimdallcli" (heimdallcli_args stakeUpdate g)) ;;
                match cmd_Run env "heimdallcli" (heimdallcli_args stakeUpdate g) with
                | Some err =>
                    fmt_Println
                      [VString "Error running heimdallcli stake update for validator: ";
                       VInt validatorId; VError err] ;;
                    ret (Some err)
                | None =>
                    fmt_Println [VString separator] ;;
                    ret None
                end
          end
      end
  end.

(** Line 61. *)
Definition init (w : World) : M Globals :=
  emit (EvLoadEnv ".env") ;;
  match godotenv_Load w ".env" with
  | Some _ => log_Fatal [VString "Error loading .env file"]
  | None =>
      ret {| EthereumRPCUrl := os_Getenv w "ethereum_rpc_url";
             PolygonSubGraphUrl := os_Getenv w "polygon_sub_graph_url";
             HeimdallRestUrl := os_Getenv w "heimdall_rest_url";
             HeimdallChainId := os_Getenv w "heimdall_chain_id" |}
  end.

(** The variables of [main] that are live across the [for] loop. *)
Record LoopVars : Type := mkLoopVars {
  validatorId : Z;
  ethereumNonce : Z
}.

(** One pass through the body of the [for] loop, lines 92 to 109.  Both
    [continue] and falling off the end of the body lead to the next pass; the
    variables handed to it are the result. *)
Definition iteration (g : Globals) (env : Env) (vars : LoopVars) : M LoopVars :=
  '(heimdallNonce, err) <- getHeimdallValidatorNonce g env (validatorId vars) ;;
  match err with
  | Some err =>
      fmt_Println [VString "Error getting heimdall nonce for validator: ";
                   VInt (validatorId vars); VError err] ;;
      time_Sleep (GoInt.mul 1 time.Second) ;;
      ret vars
  | None =>
      fmt_Println [VString "Ethereum nonce : "; VInt (ethereumNonce vars);
                   VString " Heimdall nonce : "; VInt heimdallNonce] ;;
      if ethereumNonce vars >? heimdallNonce then
        err <- processStakeUpdate g env (validatorId vars) (GoInt.add heimdallNonce 1) ;;
        match err with
        | Some err =>
            fmt_Println [VString "Error processing stake update for validator: ";
                         VInt (validatorId vars); VError err] ;;
            time_Sleep (GoInt.mul 1 time.Second) ;;
            ret vars
        | None =>
            time_Sleep (GoInt.mul 18 time.Second) ;;
            ret vars
        end
      else
        time_Sleep (GoInt.mul 18 time.Second) ;;
        ret vars
  end.

(** How far a run of [main] has got. *)
Inductive Status : Type :=
| Returned
| Looping (vars : LoopVars).

(** The exit status of the process, once it has one: 0 when [main] returns,
    2 after a panic, the argument of [os.Exit] otherwise. *)
Definition exit_status (o : Outcome Status) : option Z :=
  match o with
  | Normal Returned => Some 0
  | Normal (Looping _) => None
  | Panic _ => Some 2
  | OsExit c => Some c
  end.

(** The [for] loop, cut off after [fuel] passes; pass number [i] is
    answered by [envs i]. *)
Fixpoint loop (g : Globals) (envs : nat -> Env) (i : nat) (fuel : nat)
  (vars : LoopVars) : M Status :=
  match fuel with
  | O => ret (Looping vars)
  | S fuel' =>
      vars' <- iteration g (envs i) vars ;;
      loop g envs (S i) fuel' vars'
  end.

(** Line 73. *)
Definition main (g : Globals) (w : World) (fuel : nat) : M Status :=
  validatorIdString <- index (os_Args w) 1 ;;
  let '(validatorId, err) := strconv.Atoi validatorIdString in
  match err with
  | Some _ => log_Fatal [VString "Invalid validator id"]
  | None =>
      emit (EvDial (EthereumRPCUrl g)) ;;
      match ethclient_Dial w (EthereumRPCUrl g) with
      | Some err => log_Fatal [VError err]
      | None =>
          '(ethereumNonce, err) <-
             getEthereumValidatorNonce g (at_startup w) validatorId ;;
          match err with
          | Some err =>
              fmt_Println [VString "Error getting ethereum nonce for validator: ";
                           VInt validatorId; VError err] ;;
              ret Returned
          | None =>
              loop g (at_iteration w) 0 fuel
                {| validatorId := validatorId; ethereumNonce := ethereumNonce |}
          end
      end
  end.

(** The process: the runtime runs [init], then [main]. *)
Definition program (w : World) (fuel : nat) : M Status :=
  g <- init w ;;
  main g w fuel.

(* ===================================================================== *)
(** ** Reading a trace *)
(* ===================================================================== *)

(** The corrections a trace starts.  [processStakeUpdate] announces itself
    with its first line, which carries the validator and the nonce it was
    called with; no other line of the program has this shape. *)
Definition is_correction (e : Event) : option (Z * Z) :=
  match e with
  | EvPrintln [VString s1; VInt v; VString s2; VInt n] =>
      if (String.eqb s1 "Processing stake update for validator : "
          && String.eqb s2 " nonce : ")%bool
      then Some (v, n) else None
  | _ => None
  end.

(** The comparisons a trace makes: the (source, destination) pairs of the
    line printed just before [ethereumNonce > heimdallNonce] is tested. *)
Definition is_comparison (e : Event) : option (Z * Z) :=
  match e with
  | EvPrintln [VString s1; VInt src; VString s2; VInt dst] =>
      if (String.eqb s1 "Ethereum nonce : "
          && String.eqb s2 " Heimdall nonce : ")%bool
      then Some (src, dst) else None
  | _ => None
  end.

(** The subprocesses a trace starts. *)
Definition is_exec (e : Event) : option (string * list string) :=
  match e with
  | EvExec name args => Some (name, args)
  | _ => None
  end.

(** The pauses of a trace. *)
Definition is_sleep (e : Event) : option Z :=
  match e with
  | EvSleep d => Some d
  | _ => None
  end.

(** The beginning of the latest-nonce query, up to and including the
    argument [first:1], which the record query does not have. *)
Definition latest_nonce_prefix : string :=
  (nl ++ tab ++ tab ++ "{" ++ nl ++ tab ++ tab ++ tab ++ "stakeUpdates(first:1")%string.

(** The requests for the latest source nonce in a trace. *)
Definition is_source_query (e : Event) : option string :=
  match e with
  | EvHttpPost url [(key, text)] =>
      if (String.eqb key "query" && String.prefix latest_nonce_prefix text)%bool
      then Some url else None
  | _ => None
  end.

(** The observations of one kind in a trace, in order. *)
Definition observe {A} (f : Event -> option A) (t : list Event) : list A :=
  List.flat_map (fun e => match f e with Some a => [a] | None => [] end) t.

Definition corrections (t : list Event) : list (Z * Z) := observe is_correction t.
Definition comparisons (t : list Event) : list (Z * Z) := observe is_comparison t.
Definition execs (t : list Event) : list (string * list string) := observe is_exec t.
Definition sleeps (t : list Event) : list Z := observe is_sleep t.
Definition source_queries (t : list Event) : list string := observe is_source_query t.

(* ===================================================================== *)
(** ** Vocabulary of the properties *)
(* ===================================================================== *)

(** The address [getHeimdallValidatorNonce] asks. *)
Definition validator_url (g : Globals) (validatorId : Z) : string :=
  (HeimdallRestUrl g ++ "/staking/validator/" ++ strconv.Itoa validatorId)%string.

(** The line printed on line 99, just before the nonces are compared. *)
Definition comparison_line (src dst : Z) : Event :=
  EvPrintln [VString "Ethereum nonce : "; VInt src;
             VString " Heimdall nonce : "; VInt dst].

(** What the loop body does with the result of [processStakeUpdate],
    lines 103 to 109. *)
Definition after_correction (vars : LoopVars) (err : option error) : M LoopVars :=
  match err with
  | Some err =>
      ([EvPrintln [VString "Error processing stake update for validator: ";
                   VInt (validatorId vars); VError err];
        EvSleep time.Second], Normal vars)
  | None => ([EvSleep (18 * time.Second)], Normal vars)
  end.

(** In phase [env] the record lookup for validator [v] and nonce [n] is
    built, sent, answered, read and decoded, and the decoded list of stake
    updates is [updates]. *)
Definition record_lookup (g : Globals) (env : Env) (v n : Z)
  (updates : list Stake.Update) : Prop :=
  http_NewRequest env "POST" (PolygonSubGraphUrl g) = None
  /\ client_Do env (PolygonSubGraphUrl g) (getStakeUpdateQuery v n)
     = inr (mkHttpResponse (Encoding (Stake.mkResponse updates), None)).

(** In phase [env] the block of record [r] is number [b] and the origin
    chain reports that it was committed at Unix second [blockSec]. *)
Definition block_resolved (env : Env) (r : Stake.Update) (b blockSec : Z) : Prop :=
  big_SetString10 (Stake.Block r) = Some b
  /\ ethClient_BlockByNumber env b = inr blockSec.

(** The exact age, in nanoseconds, of a block committed at second
    [blockSec] of the Unix epoch (the [uint64] of the block header, before
    any conversion) when the clock of phase [env] is read. *)
Definition block_age (env : Env) (blockSec : Z) : Z :=
  (time.sec (time_Now env) - time.unixToInternal - blockSec) * time.Second
  + time.nsec (time_Now env).

(** The test of line 137 on a block committed at [blockSec]: [true] when the
    stake update is skipped. *)
Definition gate_skips (env : Env) (blockSec : Z) : bool :=
  time_Since env (time.Unix (GoInt.of_uint64 blockSec) 0) <? GoInt.mul time.Minute 10.

(** The block timestamps that [getBlockTime] stores as they are: those for
    which [int64(blockSec) + unixToInternal] stays in the [int64] range. *)
Definition plain_timestamp (blockSec : Z) : Prop :=
  0 <= blockSec < 2 ^ 63 - time.unixToInternal.

(** Phase [env], except that the indexed graph answers every request with
    the stake updates [updates]. *)
Definition with_updates (env : Env) (updates : list Stake.Update) : Env :=
  {| http_NewRequest := http_NewRequest env;
     client_Do := fun _ _ =>
       inr (mkHttpResponse (Encoding (Stake.mkResponse updates), None));
     http_Get := http_Get env;
     ethClient_BlockByNumber := ethClient_BlockByNumber env;
     time_Now := time_Now env;
     cmd_Run := cmd_Run env |}.

(** What [processStakeUpdate] has done by the time the block of the record
    has been looked up: lines 115, 116 and 131. *)
Definition lookup_events (g : Globals) (v n b : Z) : list Event :=
  [EvPrintln [VString "Processing stake update for validator : "; VInt v;
              VString " nonce : "; VInt n];
   EvHttpPost (PolygonSubGraphUrl g) (getStakeUpdateQuery v n);
   EvBlockByNumber b].

(* ===================================================================== *)
(** ** Further vocabulary: requests, log of commands, conditions on runs *)
(* ===================================================================== *)

(** The addresses a trace sends a GET to. *)
Definition is_get (e : Event) : option string :=
  match e with
  | EvHttpGet url => Some url
  | _ => None
  end.

(** The POST requests of a trace. *)
Definition is_post (e : Event) : option (string * JsonMap) :=
  match e with
  | EvHttpPost url body => Some (url, body)
  | _ => None
  end.

(** The blocks a trace asks the origin chain for. *)
Definition is_block_lookup (e : Event) : option Z :=
  match e with
  | EvBlockByNumber number => Some number
  | _ => None
  end.

(** The command lines a trace prints: the lines whose first word is
    [heimdallcli] (line 142). *)
Definition is_command_line (e : Event) : option (list Value) :=
  match e with
  | EvPrintln (VString word :: words) =>
      if String.eqb word "heimdallcli" then Some (VString word :: words) else None
  | _ => None
  end.

Definition gets (t : list Event) : list string := observe is_get t.
Definition posts (t : list Event) : list (string * JsonMap) := observe is_post t.
Definition block_lookups (t : list Event) : list Z := observe is_block_lookup t.
Definition command_lines (t : list Event) : list (list Value) :=
  observe is_command_line t.

(** The [error] value a pass of the loop tests on line 93 or on line 103,
    if it gets one. *)
Definition pass_error (g : Globals) (env : Env) (vars : LoopVars) : option error :=
  match outcome (getHeimdallValidatorNonce g env (validatorId vars)) with
  | Normal (_, Some e) => Some e
  | Normal (dst, None) =>
      if ethereumNonce vars >? dst then
        match outcome (processStakeUpdate g env (validatorId vars) (GoInt.add dst 1)) with
        | Normal err => err
        | _ => None
        end
      else None
  | _ => None
  end.

(** How long a pass that ends normally sleeps: one second after an error
    value, eighteen otherwise (lines 95, 105 and 109). *)
Definition pass_sleep (g : Globals) (env : Env) (vars : LoopVars) : Z :=
  match pass_error g env vars with
  | Some _ => time.Second
  | None => 18 * time.Second
  end.


(** In every pass the destination ledger answers, without an error field,
    with a nonce that is not below [src]. *)
Definition in_sync (g : Globals) (envs : nat -> Env) (v src : Z) : Prop :=
  forall i, exists r,
    http_Get (envs i) (validator_url g v) = inr (mkHttpResponse (Encoding r, None))
    /\ Validator.Error r = ""
    /\ src <= Validator.Nonce (Validator.result r).

(** The characters [strconv.Itoa] writes: decimal digits and the minus
    sign. *)
Definition numeric_char (c : ascii) : bool :=
  match strconv.digit c with
  | Some _ => true
  | None => Ascii.eqb c "-"
  end.

Fixpoint numeric (s : string) : bool :=
  match s with
  | EmptyString => true
  | String c rest => numeric_char c && numeric rest
  end.

(** Case analysis on the next thing the code under study branches on. *)
Ltac branch :=
  match goal with
  | |- context [match ?x with _ => _ end] =>
      lazymatch x with
      | context [match _ with _ => _ end] => fail
      | _ => destruct x eqn:?
      end
  end.

Ltac unfold_go :=
  unfold querySubGraph, getBlockTime, index, ioutil_ReadAll, json_Unmarshal,
    fmt_Println, time_Sleep, log_Fatal, emit, panic, ret, bind, trace, outcome.

(* ===================================================================== *)
(** ** Sample worlds *)
(* ===================================================================== *)

Module Sample.

Definition g : Globals :=
  {| HeimdallRestUrl := "http://heimdall";
     PolygonSubGraphUrl := "http://graph";
     HeimdallChainId := "heimdall-137";
     EthereumRPCUrl := "http://eth" |}.

Definition record4 : Stake.Update :=
  {| Stake.ID := "0x07-4";
     Stake.ValidatorID := "7";
     Stake.TotalStaked := "1000000000000000000";
     Stake.Block := "18000000";
     Stake.Nonce := "4";
     Stake.TransactionHash := "0xabc";
     Stake.LogIndex := "12" |}.

Definition record9 : Stake.Update :=
  {| Stake.ID := "0x07-9";
     Stake.ValidatorID := "8";
     Stake.TotalStaked := "5";
     Stake.Block := "18000001";
     Stake.Nonce := "9";
     Stake.TransactionHash := "0xdef";
     Stake.LogIndex := "1" |}.

Definition validator (nonce : Z) (err : string) : Validator.Response :=
  {| Validator.Height := "100";
     Validator.result :=
       {| Validator.ID := 7; Validator.StartEpoch := 1; Validator.EndEpoch := 0;
          Validator.Nonce := nonce; Validator.Power := 10;
          Validator.PubKey := "0x04"; Validator.Signer := "0x5e";
          Validator.LastUpdated := "1"; Validator.Jailed := false;
          Validator.Accum := 0 |};
     Validator.Error := err |}.

(** A phase in which every collaborator answers: the destination ledger
    with [dest], the indexed graph with the records [updates], the origin
    chain with a block committed at second [blockSec], the clock with
    second [nowSec] (one second after the process started), and
    [heimdallcli] with success. *)
Definition env (dest : Validator.Response) (updates : list Stake.Update)
  (blockSec nowSec : Z) : Env :=
  {| http_NewRequest := fun _ _ => None;
     client_Do := fun _ _ =>
       inr (mkHttpResponse (Encoding (Stake.mkResponse updates), None));
     http_Get := fun _ => inr (mkHttpResponse (Encoding dest, None));
     ethClient_BlockByNumber := fun _ => inr blockSec;
     time_Now := time.Now nowSec 0 1000000000;
     cmd_Run := fun _ _ => None |}.

(** A phase in which the indexed graph cannot be reached. *)
Definition env_graph_down : Env :=
  {| http_NewRequest := fun _ _ => None;
     client_Do := fun _ _ => inl (External "connection refused");
     http_Get := fun _ => inl (External "connection refused");
     ethClient_BlockByNumber := fun _ => inl (External "not found");
     time_Now := time.Now 1700000000 0 1000000000;
     cmd_Run := fun _ _ => None |}.

Definition world (startup : Env) (passes : nat -> Env) : World :=
  {| godotenv_Load := fun _ => None;
     os_Getenv := fun key =>
       if String.eqb key "ethereum_rpc_url" then EthereumRPCUrl g
       else if String.eqb key "polygon_sub_graph_url" then PolygonSubGraphUrl g
       else if String.eqb key "heimdall_rest_url" then HeimdallRestUrl g
       else if String.eqb key "heimdall_chain_id" then HeimdallChainId g
       else "";
     os_Args := ["stake-update-go"; "7"];
     ethclient_Dial := fun _ => None;
     at_startup := startup;
     at_iteration := passes |}.

(** A run in which everything answers: the source nonce is 4, the
    destination nonce stays 3, and in every pass the indexed graph knows no
    stake update for nonce 4. *)
Definition world_empty_lookup : World :=
  world (env (validator 0 "") [record4] 0 0)
        (fun _ => env (validator 3 "") [] 1700000000 1700001200).

(** A run in which the source nonce is 4, the destination nonce stays 3 and
    the block of the pending stake update is one minute old. *)
Definition world_young_block : World :=
  world (env (validator 0 "") [record4] 0 0)
        (fun _ => env (validator 3 "") [record4] 1700000000 1700000060).

(** A run in which the indexed graph cannot be reached. *)
Definition world_graph_down : World :=
  world env_graph_down (fun _ => env_graph_down).

(** A run started without the validator id argument. *)
Definition world_no_argument : World :=
  {| godotenv_Load := fun _ => None;
     os_Getenv := os_Getenv world_graph_down;
     os_Args := ["stake-update-go"];
     ethclient_Dial := fun _ => None;
     at_startup := env_graph_down;
     at_iteration := fun _ => env_graph_down |}.

(** A run in a directory without a readable [.env] file. *)
Definition world_no_dotenv : World :=
  {| godotenv_Load := fun _ => Some (External "open .env: no such file or directory");
     os_Getenv := fun _ => "";
     os_Args := ["stake-update-go"; "7"];
     ethclient_Dial := fun _ => None;
     at_startup := env_graph_down;
     at_iteration := fun _ => env_graph_down |}.

(** A stake update whose block is written in hexadecimal. *)
Definition record_hex_block : Stake.Update :=
  {| Stake.ID := "0x07-4";
     Stake.ValidatorID := "7";
     Stake.TotalStaked := "1000000000000000000";
     Stake.Block := "0x112a880";
     Stake.Nonce := "4";
     Stake.TransactionHash := "0xabc";
     Stake.LogIndex := "12" |}.

(** Passes in which the destination nonce is 3 and the pending stake update
    is twenty minutes old. *)
Definition passes_behind : nat -> Env :=
  fun _ => env (validator 3 "") [record4] 1700000000 1700001200.

(** Passes in which the destination nonce has reached 4. *)
Definition passes_in_sync : nat -> Env :=
  fun _ => env (validator 4 "") [] 1700000000 1700001200.

End Sample.

(* ===================================================================== *)
(** ** Facts about integers, runs and traces *)
(* ===================================================================== *)

Section IntFacts.

Lemma wrap_small (z : Z) : GoInt.is_int z -> GoInt.wrap z = z.
Proof.
  unfold GoInt.is_int, GoInt.wrap, GoInt.minInt, GoInt.maxInt. intros H.
  rewrite Z.mod_small; lia.
Qed.


Lemma saturate_ltb (z d : Z) :
  GoInt.minInt < d <= GoInt.maxInt ->
  (GoInt.saturate z <? d) = (z <? d).
Proof.
  unfold GoInt.saturate. intros Hd.
  destruct (Z.ltb_spec z GoInt.minInt); [|destruct (Z.ltb_spec GoInt.maxInt z)];
    destruct (Z.ltb_spec z d); try reflexivity; apply Z.ltb_lt || apply Z.ltb_ge; lia.
Qed.

Lemma ten_minutes : GoInt.mul time.Minute 10 = 600 * time.Second.
Proof. reflexivity. Qed.

Lemma one_second : GoInt.mul 1 time.Second = time.Second.
Proof. reflexivity. Qed.

Lemma eighteen_seconds : GoInt.mul 18 time.Second = 18 * time.Second.
Proof. reflexivity. Qed.

End IntFacts.

(* ===================================================================== *)
(** ** Facts about package time *)
(* ===================================================================== *)

Section TimeFacts.


Lemma wrap_is_int (z : Z) : GoInt.is_int (GoInt.wrap z).
Proof.
  unfold GoInt.is_int, GoInt.wrap, GoInt.minInt, GoInt.maxInt.
  pose proof (Z.mod_pos_bound (z + 2 ^ 63) (2 ^ 64) ltac:(lia)). lia.
Qed.

Lemma wrap_shift (z k : Z) : GoInt.wrap (z + k * 2 ^ 64) = GoInt.wrap z.
Proof.
  unfold GoInt.wrap.
  replace (z + k * 2 ^ 64 + 2 ^ 63) with (z + 2 ^ 63 + k * 2 ^ 64) by lia.
  now rewrite Z.mod_add by lia.
Qed.

Lemma wrap_spec (z : Z) : exists k, GoInt.wrap z = z + k * 2 ^ 64.
Proof.
  exists (- ((z + 2 ^ 63) / 2 ^ 64)). unfold GoInt.wrap.
  rewrite Z.mod_eq by lia. lia.
Qed.

Lemma wrap_add_l (a b : Z) : GoInt.wrap (GoInt.wrap a + b) = GoInt.wrap (a + b).
Proof.
  destruct (wrap_spec a) as [k ->].
  replace (a + k * 2 ^ 64 + b) with (a + b + k * 2 ^ 64) by lia. apply wrap_shift.
Qed.

Lemma wrap_mul_l (a b : Z) : GoInt.wrap (GoInt.wrap a * b) = GoInt.wrap (a * b).
Proof.
  destruct (wrap_spec a) as [k ->].
  replace ((a + k * 2 ^ 64) * b) with (a * b + (k * b) * 2 ^ 64) by lia. apply wrap_shift.
Qed.

Lemma int32_small (z : Z) : - 2 ^ 31 <= z < 2 ^ 31 -> time.int32 z = z.
Proof. intros H. unfold time.int32. rewrite Z.mod_small by lia. lia. Qed.

Lemma uint64_small (z : Z) : 0 <= z < 2 ^ 64 -> time.uint64 z = z.
Proof. intros H. unfold time.uint64. now rewrite Z.mod_small by lia. Qed.

Lemma land_hasMonotonic (x : Z) :
  0 <= x < 2 ^ 63 -> Z.land x time.hasMonotonic = 0.
Proof.
  intros H. unfold time.hasMonotonic. apply Z.bits_inj'. intros n Hn.
  rewrite Z.land_spec, Z.bits_0, Z.pow2_bits_eqb by lia.
  destruct (Z.eqb_spec 63 n) as [<- | Hne]; [ | apply andb_false_r ].
  rewrite andb_true_r. destruct (Z.eq_dec x 0) as [-> | Hx]; [ apply Z.bits_0 | ].
  apply Z.bits_above_log2; [ lia | ].
  apply Z.log2_lt_pow2; lia.
Qed.

Lemma land_bounds (a b : Z) : 0 <= a -> 0 <= b -> 0 <= Z.land a b <= a.
Proof.
  intros Ha Hb. split; [ apply Z.land_nonneg; now left | ].
  destruct (Z.eq_dec a 0) as [-> | Hne]; [ now rewrite Z.land_0_l | ].
  assert (Hs : Z.land a b = a - Z.ldiff a b).
  { pose proof (Z.add_nocarry_lxor (Z.land a b) (Z.ldiff a b)) as Hx.
    assert (Hz : Z.land (Z.land a b) (Z.ldiff a b) = 0).
    { apply Z.bits_inj'. intros n Hn.
      rewrite !Z.land_spec, Z.ldiff_spec, Z.bits_0.
      destruct (Z.testbit a n), (Z.testbit b n); reflexivity. }
    specialize (Hx Hz).
    assert (Ho : Z.lxor (Z.land a b) (Z.ldiff a b) = a).
    { apply Z.bits_inj'. intros n Hn.
      rewrite Z.lxor_spec, Z.land_spec, Z.ldiff_spec.
      destruct (Z.testbit a n), (Z.testbit b n); reflexivity. }
    lia. }
  assert (0 <= Z.ldiff a b) by (apply Z.ldiff_nonneg; now left). lia.
Qed.

Lemma land_nsecMask (x : Z) : 0 <= x -> 0 <= Z.land x time.nsecMask < 2 ^ 30.
Proof.
  intros H. change time.nsecMask with (Z.ones 30).
  rewrite Z.land_ones by lia. apply Z.mod_pos_bound. lia.
Qed.

Lemma land_nsecMask_small (x : Z) : 0 <= x < 2 ^ 30 -> Z.land x time.nsecMask = x.
Proof.
  intros H. change time.nsecMask with (Z.ones 30).
  rewrite Z.land_ones by lia. apply Z.mod_small. lia.
Qed.

Lemma nsec_bounds (t : time.Time) : 0 <= time.wall t -> 0 <= time.nsec t < 2 ^ 30.
Proof.
  intros H. unfold time.nsec. pose proof (land_nsecMask _ H).
  rewrite int32_small; lia.
Qed.

(** A time made by [time.Unix(s, 0)]: no monotonic reading, nanosecond 0,
    and the internal second [s + unixToInternal] wrapped to 64 bits. *)
Lemma Unix_fields (s : Z) :
  time.Unix s 0 = time.mkTime 0 (GoInt.add s time.unixToInternal).
Proof. reflexivity. Qed.


Lemma monotonic_small (w e : Z) :
  0 <= w < 2 ^ 63 -> time.monotonic (time.mkTime w e) = false.
Proof.
  intros H. unfold time.monotonic. cbn [time.wall].
  now rewrite land_hasMonotonic by assumption.
Qed.

Lemma sec_plain (w e : Z) : 0 <= w < 2 ^ 63 -> time.sec (time.mkTime w e) = e.
Proof. intros H. unfold time.sec. now rewrite monotonic_small by assumption. Qed.

Lemma nsec_plain (w e : Z) : 0 <= w < 2 ^ 30 -> time.nsec (time.mkTime w e) = w.
Proof.
  intros H. unfold time.nsec. cbn [time.wall].
  rewrite land_nsecMask_small by assumption. apply int32_small. lia.
Qed.

Lemma both_monotonic_small_l (t u : time.Time) :
  0 <= time.wall t < 2 ^ 63 -> 0 <= time.wall u -> time.both_monotonic t u = false.
Proof.
  intros Ht Hu. unfold time.both_monotonic.
  pose proof (land_bounds (time.wall t) (time.wall u) ltac:(lia) Hu).
  now rewrite land_hasMonotonic by lia.
Qed.

Lemma both_monotonic_small_r (t u : time.Time) :
  0 <= time.wall t -> 0 <= time.wall u < 2 ^ 63 -> time.both_monotonic t u = false.
Proof.
  intros Ht Hu. unfold time.both_monotonic. rewrite (Z.land_comm (time.wall t)).
  pose proof (land_bounds (time.wall u) (time.wall t) ltac:(lia) Ht).
  now rewrite land_hasMonotonic by lia.
Qed.

(** Truncated division, as Go's [/] and [%], against floor division. *)
Lemma quot_rem_floor (d : Z) :
  let q := Z.quot d 1000000000 in
  let r := Z.rem d 1000000000 in
  - 1000000000 < r < 1000000000 /\
  (if r <? 0 then q - 1 else q) = d / 1000000000 /\
  (if r <? 0 then r + 1000000000 else r) = d mod 1000000000.
Proof.
  intros q r.
  pose proof (Z.quot_rem' d 1000000000) as Hqr. fold q r in Hqr.
  assert (Hr : - 1000000000 < r < 1000000000).
  { pose proof (Z.rem_bound_abs d 1000000000 ltac:(lia)). subst r. lia. }
  split; [ exact Hr | ].
  destruct (Z.ltb_spec r 0) as [Hneg | Hpos].
  - pose proof (Z.div_mod_unique 1000000000 (q - 1) (d / 1000000000)
                  (r + 1000000000) (d mod 1000000000)) as Hu.
    pose proof (Z.mod_pos_bound d 1000000000 ltac:(lia)).
    pose proof (Z.div_mod d 1000000000 ltac:(lia)).
    apply Hu; [ left; lia | left; lia | lia ].
  - pose proof (Z.div_mod_unique 1000000000 q (d / 1000000000)
                  r (d mod 1000000000)) as Hu.
    pose proof (Z.mod_pos_bound d 1000000000 ltac:(lia)).
    pose proof (Z.div_mod d 1000000000 ltac:(lia)).
    apply Hu; [ left; lia | left; lia | lia ].
Qed.

(** [Add] on a time without monotonic reading and with nanosecond 0. *)
Lemma Add_plain (U d : Z) :
  GoInt.is_int d ->
  time.Add (time.mkTime 0 U) d =
  time.addSec_ext (time.mkTime (d mod 1000000000) U) (d / 1000000000).
Proof.
  intros Hd.
  destruct (quot_rem_floor d) as (Hr & Hq & Hm).
  set (q := Z.quot d 1000000000) in *. set (r := Z.rem d 1000000000) in *.
  pose proof (Z.mod_pos_bound d 1000000000 ltac:(lia)) as Hmb.
  assert (Hqb : - 2 ^ 62 < q < 2 ^ 62).
  { pose proof (Z.quot_rem' d 1000000000) as Hqr. fold q r in Hqr.
    unfold GoInt.is_int, GoInt.minInt, GoInt.maxInt in Hd. lia. }
  unfold time.Add. fold q r.
  change (time.nsec (time.mkTime 0 U)) with 0.
  rewrite Z.add_0_l, (int32_small r) by lia. rewrite (int32_small r) by lia.
  destruct (Z.leb_spec 1000000000 r) as [Hbig | _]; [ lia | ].
  cbn [time.wall time.ext].
  change (Z.ldiff 0 time.nsecMask) with 0. rewrite Z.lor_0_l.
  assert (Hds : (if r <? 0 then GoInt.sub q 1 else q) = d / 1000000000).
  { rewrite <- Hq. destruct (r <? 0); [ | reflexivity ].
    unfold GoInt.sub. apply wrap_small.
    unfold GoInt.is_int, GoInt.minInt, GoInt.maxInt. lia. }
  assert (Hns : time.uint64 (if r <? 0 then time.int32 (r + 1000000000) else r)
                = d mod 1000000000).
  { rewrite <- Hm. destruct (Z.ltb_spec r 0).
    - rewrite int32_small by lia. apply uint64_small. lia.
    - apply uint64_small. lia. }
  rewrite Hds, Hns.
  unfold time.addSec. rewrite monotonic_small by lia.
  assert (Hmono : forall t, time.wall t = d mod 1000000000 -> time.monotonic t = false).
  { intros [w e] Hw. cbn in Hw. subst w. apply monotonic_small. lia. }
  rewrite Hmono; [ reflexivity | ].
  unfold time.addSec_ext. cbn [time.wall time.ext].
  repeat match goal with |- context [if ?c then _ else _] => destruct c end; reflexivity.
Qed.

(** [Sub] against a time that [time.Unix(s, 0)] made: the difference of the
    two stored readings, saturated to the range of a Duration. *)
Lemma Sub_plain (now : time.Time) (U : Z) :
  time.valid now -> GoInt.is_int U ->
  time.Sub now (time.mkTime 0 U) =
  GoInt.saturate ((time.sec now - U) * time.Second + time.nsec now).
Proof.
  intros (Hw & Hn & Hs) HU.
  pose proof (nsec_bounds now Hw) as Hnb.
  set (N := time.sec now) in *. set (n := time.nsec now) in *.
  set (D := (N - U) * time.Second + n).
  unfold time.Sub.
  rewrite both_monotonic_small_r by (cbn; lia).
  change (time.sec (time.mkTime 0 U)) with U.
  change (time.nsec (time.mkTime 0 U)) with 0.
  fold N n. rewrite Z.sub_0_r, (int32_small n) by lia.
  assert (Hd : GoInt.add (GoInt.mul (GoInt.sub N U) time.Second) n = GoInt.wrap D).
  { unfold GoInt.add, GoInt.mul, GoInt.sub. now rewrite wrap_mul_l, wrap_add_l. }
  rewrite Hd. set (d := GoInt.wrap D).
  assert (Hdi : GoInt.is_int d) by apply wrap_is_int.
  rewrite Add_plain by assumption.
  pose proof (Z.mod_pos_bound d 1000000000 ltac:(lia)) as Hmb.
  pose proof (Z.div_mod d 1000000000 ltac:(lia)) as Hdm.
  set (ds := d / 1000000000) in *. set (ns := d mod 1000000000) in *.
  assert (Hdsb : - 2 ^ 62 < ds < 2 ^ 62).
  { unfold GoInt.is_int, GoInt.minInt, GoInt.maxInt in Hdi. lia. }
  unfold GoInt.is_int, GoInt.minInt, GoInt.maxInt in HU, Hdi.
  (* the seconds after [addSec] *)
  assert (Hext : forall t, t = time.addSec_ext (time.mkTime ns U) ds ->
            time.wall t = ns /\
            ((- 2 ^ 63 <= U + ds <= 2 ^ 63 - 1 /\ time.ext t = U + ds) \/
             (~ (- 2 ^ 63 <= U + ds <= 2 ^ 63 - 1) /\
              (time.ext t = 2 ^ 63 - 1 \/ time.ext t = - (2 ^ 63 - 1))))).
  { intros t ->. unfold time.addSec_ext. cbn [time.wall time.ext].
    destruct (wrap_spec (U + ds)) as [k Hk].
    pose proof (wrap_is_int (U + ds)) as Hwi.
    unfold GoInt.add. unfold GoInt.is_int, GoInt.minInt, GoInt.maxInt in *.
    destruct (Z.gtb_spec (GoInt.wrap (U + ds)) U) as [H1 | H1];
      destruct (Z.gtb_spec ds 0) as [H2 | H2]; cbn [Bool.eqb time.wall time.ext];
      (split; [ reflexivity | ]).
    - left. assert (k = 0) by lia. subst k. lia.
    - right. lia.
    - right. lia.
    - left. assert (k = 0) by lia. subst k. lia. }
  destruct (Hext _ eq_refl) as (Hwall & Hcases).
  set (t2 := time.addSec_ext (time.mkTime ns U) ds) in *.
  destruct t2 as [w2 e2]. cbn [time.wall time.ext] in Hwall, Hcases. subst w2.
  unfold time.Equal, time.Before.
  rewrite both_monotonic_small_l by (cbn; lia).
  rewrite both_monotonic_small_r by (cbn; lia).
  rewrite sec_plain, nsec_plain by lia.
  change (time.sec (time.mkTime 0 U)) with U.
  change (time.nsec (time.mkTime 0 U)) with 0.
  fold N n.
  unfold GoInt.saturate, GoInt.minInt, GoInt.maxInt, time.minDuration, time.maxDuration.
  destruct (wrap_spec D) as [k Hk]. fold d in Hk.
  assert (HD : D = (N - U) * 1000000000 + n) by reflexivity.
  destruct (Z.eqb_spec e2 N) as [He | He]; destruct (Z.eqb_spec ns n) as [Hne | Hne];
    cbn [andb orb];
    destruct (Z.ltb_spec D (- 2 ^ 63)); destruct (Z.ltb_spec (2 ^ 63 - 1) D);
    destruct (Z.ltb_spec N U); destruct (Z.eqb_spec N U); destruct (Z.ltb_spec n 0);
    cbn [andb orb]; try reflexivity; try lia.
Qed.


(** Bits that do not overlap are joined by addition. *)
Lemma lor_disjoint (a b : Z) : Z.land a b = 0 -> Z.lor a b = a + b.
Proof.
  intros H. rewrite (Z.add_nocarry_lxor a b H).
  apply Z.bits_inj'. intros i Hi.
  rewrite Z.lor_spec, Z.lxor_spec.
  assert (Hb : Z.testbit (Z.land a b) i = false) by (rewrite H; apply Z.bits_0).
  rewrite Z.land_spec in Hb.
  destruct (Z.testbit a i), (Z.testbit b i); simpl in *; congruence.
Qed.

Lemma land_shifted_small (a b k : Z) :
  0 <= k -> 0 <= b < 2 ^ k -> Z.land (Z.shiftl a k) b = 0.
Proof.
  intros Hk Hb. apply Z.bits_inj'. intros i Hi.
  rewrite Z.land_spec, Z.bits_0.
  destruct (Z_lt_le_dec i k) as [Hlt | Hge].
  - now rewrite Z.shiftl_spec_low by assumption.
  - destruct (Z.eq_dec b 0) as [-> | Hne].
    + rewrite Z.bits_0. apply andb_false_r.
    + rewrite (Z.bits_above_log2 b i); [ apply andb_false_r | lia | ].
      apply Z.lt_le_trans with (m := k); [ | assumption ].
      apply Z.log2_lt_pow2; lia.
Qed.

(** The [wall] word that [time.Now] packs, as a sum. *)
Lemma wall_packed (s n : Z) :
  0 <= s < 2 ^ 33 -> 0 <= n < 2 ^ 30 ->
  Z.lor (Z.lor time.hasMonotonic (time.uint64 (Z.shiftl (time.uint64 s) time.nsecShift)))
        (time.uint64 n)
  = 2 ^ 63 + s * 2 ^ 30 + n.
Proof.
  intros Hs Hn. unfold time.hasMonotonic, time.nsecShift.
  rewrite (uint64_small s), (uint64_small n) by lia.
  rewrite Z.shiftl_mul_pow2 by lia.
  rewrite (uint64_small (s * 2 ^ 30)) by lia.
  rewrite (Z.lor_comm (2 ^ 63)).
  assert (H1 : Z.land (s * 2 ^ 30) (2 ^ 63) = 0).
  { apply land_hasMonotonic. lia. }
  rewrite (lor_disjoint _ _ H1).
  assert (H2 : Z.land (s * 2 ^ 30 + 2 ^ 63) n = 0).
  { replace (s * 2 ^ 30 + 2 ^ 63) with ((s + 2 ^ 33) * 2 ^ 30) by lia.
    rewrite <- Z.shiftl_mul_pow2 by lia. apply land_shifted_small; lia. }
  rewrite (lor_disjoint _ _ H2). lia.
Qed.

(** What [time.Now] returns reads back as the wall clock it was made from,
    and is a valid time. *)
Lemma Now_reads (s n mono : Z) :
  - 2 ^ 62 <= s <= 2 ^ 62 -> 0 <= n < 1000000000 ->
  time.sec (time.Now s n mono) = s + time.unixToInternal
  /\ time.nsec (time.Now s n mono) = n
  /\ time.valid (time.Now s n mono).
Proof.
  intros Hs Hn.
  assert (Hgoal : time.sec (time.Now s n mono) = s + time.unixToInternal
                  /\ time.nsec (time.Now s n mono) = n
                  /\ 0 <= time.wall (time.Now s n mono)).
  { unfold time.Now, time.unixToInternal, time.minWall, time.wallToInternal.
    change (62135596800 - 59453308800) with 2682288000.
    assert (Hadd : GoInt.add s 2682288000 = s + 2682288000).
    { unfold GoInt.add. apply wrap_small.
      unfold GoInt.is_int, GoInt.minInt, GoInt.maxInt. lia. }
    rewrite Hadd. clear Hadd. set (s' := s + 2682288000).
    destruct (Z.eqb_spec (Z.shiftr (time.uint64 s') 33) 0) as [Hfit | Hbig];
      cbn [negb].
    - (* the seconds fit the 33 bits of [wall] *)
      assert (Hs' : 0 <= s' < 2 ^ 33).
      { rewrite Z.shiftr_div_pow2 in Hfit by lia.
        unfold time.uint64 in Hfit.
        destruct (Z_lt_le_dec s' 0) as [Hneg | Hpos].
        - replace s' with (s' + 2 ^ 64 + (-1) * 2 ^ 64) in Hfit by lia.
          rewrite Z.mod_add, Z.mod_small in Hfit by lia.
          exfalso.
          assert (2 ^ 33 <= s' + 2 ^ 64) by lia.
          pose proof (Z.div_le_mono (2 ^ 33) (s' + 2 ^ 64) (2 ^ 33) ltac:(lia) H).
          rewrite Z.div_same in H0 by lia. lia.
        - rewrite Z.mod_small in Hfit by lia.
          split; [ assumption | ].
          destruct (Z_lt_le_dec s' (2 ^ 33)) as [ | Hge ]; [ assumption | exfalso ].
          pose proof (Z.div_le_mono (2 ^ 33) s' (2 ^ 33) ltac:(lia) Hge).
          rewrite Z.div_same in H by lia. lia. }
      rewrite wall_packed by lia.
      set (w := 2 ^ 63 + s' * 2 ^ 30 + n).
      assert (Hmono : time.monotonic (time.mkTime w mono) = true).
      { unfold time.monotonic, time.hasMonotonic. cbn [time.wall].
        destruct (Z.eqb_spec (Z.land w (2 ^ 63)) 0) as [Hz | ]; [ exfalso | reflexivity ].
        assert (Hb : Z.testbit (Z.land w (2 ^ 63)) 63 = false)
          by (rewrite Hz; apply Z.bits_0).
        rewrite Z.land_spec, Z.pow2_bits_true, andb_true_r in Hb by lia.
        apply Z.testbit_false in Hb; [ | lia ].
        assert (Hq : w / 2 ^ 63 = 1).
        { symmetry. apply (Z.div_unique w (2 ^ 63) 1 (s' * 2 ^ 30 + n)); [ left | ];
            subst w; lia. }
        rewrite Hq in Hb. discriminate Hb. }
      unfold time.sec, time.nsec, time.wallSec. rewrite Hmono. cbn [time.wall].
      change time.nsecMask with (Z.ones 30). rewrite Z.land_ones by lia.
      rewrite Z.shiftl_mul_pow2, Z.shiftr_div_pow2 by (unfold time.nsecShift; lia).
      unfold time.nsecShift. change (30 + 1) with 31.
      assert (Hsh : time.uint64 (w * 2 ^ 1) = s' * 2 ^ 31 + 2 * n).
      { unfold time.uint64. symmetry.
        apply (Z.mod_unique (w * 2 ^ 1) (2 ^ 64) 1); [ left | ]; subst w; lia. }
      rewrite Hsh.
      assert (Hdiv : (s' * 2 ^ 31 + 2 * n) / 2 ^ 31 = s').
      { symmetry. apply (Z.div_unique _ (2 ^ 31) s' (2 * n)); [ left | ]; lia. }
      rewrite Hdiv.
      assert (Hmod : w mod 2 ^ 30 = n).
      { symmetry. apply (Z.mod_unique w (2 ^ 30) (2 ^ 33 + s')); [ left | ]; subst w; lia. }
      rewrite Hmod.
      unfold GoInt.of_uint64, GoInt.add, time.wallToInternal.
      rewrite (wrap_small s') by (unfold GoInt.is_int, GoInt.minInt, GoInt.maxInt; lia).
      rewrite wrap_small by (unfold GoInt.is_int, GoInt.minInt, GoInt.maxInt; lia).
      rewrite int32_small by lia.
      repeat split; subst w s'; lia.
    - (* the seconds do not fit: no monotonic reading is kept *)
      rewrite (uint64_small n) by lia.
      rewrite sec_plain, nsec_plain by lia. cbn [time.wall]. unfold GoInt.add.
      rewrite wrap_small by (unfold GoInt.is_int, GoInt.minInt, GoInt.maxInt; subst s'; lia).
      repeat split; subst s'; lia. }
  destruct Hgoal as (Hsec & Hnsec & Hwall).
  split; [ exact Hsec | ]. split; [ exact Hnsec | ].
  unfold time.valid. rewrite Hsec, Hnsec. unfold time.unixToInternal.
  repeat split; lia.
Qed.

End TimeFacts.

Section RunFacts.

Context {A B : Type}.

Lemma trace_bind (m : M A) (k : A -> M B) :
  trace (bind m k) =
  trace m ++ match outcome m with Normal a => trace (k a) | _ => [] end.
Proof.
  destruct m as [t [a|msg|c]]; simpl; rewrite ?app_nil_r; auto.
  destruct (k a); reflexivity.
Qed.

Lemma outcome_bind (m : M A) (k : A -> M B) :
  outcome (bind m k) =
  match outcome m with
  | Normal a => outcome (k a)
  | Panic msg => Panic msg
  | OsExit c => OsExit c
  end.
Proof.
  destruct m as [t [a|msg|c]]; simpl; auto. destruct (k a); reflexivity.
Qed.

Lemma bind_normal (t : list Event) (a : A) (k : A -> M B) :
  bind (t, Normal a) k = (t ++ trace (k a), outcome (k a)).
Proof. simpl. destruct (k a); reflexivity. Qed.

Lemma observe_app {C} (f : Event -> option C) (t1 t2 : list Event) :
  observe f (t1 ++ t2) = observe f t1 ++ observe f t2.
Proof. apply flat_map_app. Qed.

End RunFacts.

(* ===================================================================== *)
(** ** strconv: [Atoi] reads what [Itoa] writes *)
(* ===================================================================== *)

Module strconv_facts.

Import strconv.

Ltac eval_digit :=
  match goal with
  | |- context [digit ?c] =>
      let v := eval vm_compute in (digit c) in change (digit c) with v
  end; cbv iota.

Lemma digits_of_uint_acc (d : Decimal.uint) : forall p,
  digits (Z.pos p) (NilEmpty.string_of_uint d) = Some (Z.pos (Pos.of_uint_acc d p)).
Proof.
  induction d; intros p; cbn [NilEmpty.string_of_uint digits Pos.of_uint_acc];
    [reflexivity | ..]; eval_digit; rewrite <- IHd; f_equal; lia.
Qed.

Lemma digits_of_uint (d : Decimal.uint) :
  digits 0 (NilEmpty.string_of_uint d) = Some (Z.of_N (Pos.of_uint d)).
Proof.
  induction d; cbn [NilEmpty.string_of_uint digits Pos.of_uint];
    [reflexivity | ..]; eval_digit; change (0 * 10 + 0) with 0; try exact IHd;
    match goal with
    | |- digits ?k _ = _ => let v := eval vm_compute in k in change k with v
    end; rewrite digits_of_uint_acc; reflexivity.
Qed.

Lemma signed_decimal_of_uint (d : Decimal.uint) :
  d <> Decimal.Nil ->
  signed_decimal (NilEmpty.string_of_uint d) = Some (Z.of_N (Pos.of_uint d)).
Proof.
  intros Hd. rewrite <- digits_of_uint.
  destruct d; [congruence | ..];
    cbn [NilEmpty.string_of_uint]; unfold signed_decimal;
    match goal with
    | |- context [String ?c _] =>
        change (Ascii.eqb c "-") with false; change (Ascii.eqb c "+") with false
    end; cbv iota; simpl orb; cbv iota;
    match goal with |- context [digits 0 ?s] => destruct (digits 0 s) end;
    reflexivity.
Qed.

Lemma string_of_to_uint (p : positive) :
  NilZero.string_of_uint (Pos.to_uint p) = NilEmpty.string_of_uint (Pos.to_uint p).
Proof.
  pose proof (Unsigned.to_uint_nonnil p).
  destruct (Pos.to_uint p); [congruence | reflexivity ..].
Qed.

(** The decimal text of an integer parses back to that integer. *)
Lemma signed_decimal_Itoa (n : Z) : signed_decimal (Itoa n) = Some n.
Proof.
  destruct n as [|p|p]; [reflexivity | |];
    unfold Itoa; cbn [Z.to_int NilZero.string_of_int];
    rewrite string_of_to_uint; pose proof (Unsigned.to_uint_nonnil p) as Hn.
  - rewrite signed_decimal_of_uint by assumption.
    rewrite Unsigned.of_to. reflexivity.
  - unfold signed_decimal. change (Ascii.eqb "-" "-") with true.
    simpl orb. cbv iota.
    rewrite digits_of_uint, Unsigned.of_to.
    destruct (Pos.to_uint p); [congruence | reflexivity ..].
Qed.



Lemma Atoi_is_int (s : string) (n : Z) :
  Atoi s = (n, None) -> GoInt.is_int n.
Proof.
  unfold Atoi. destruct (signed_decimal s) as [v|]; [|discriminate].
  destruct (Z.ltb_spec v GoInt.minInt); [discriminate|].
  destruct (Z.ltb_spec GoInt.maxInt v); [discriminate|].
  intros [= <-]. split; assumption.
Qed.

End strconv_facts.

(* ===================================================================== *)
(** ** The two nonce fetches *)
(* ===================================================================== *)

(** The run of [getHeimdallValidatorNonce] on a reply that was read and
    decoded: one request, and the sentinel or the nonce field. *)
Lemma getHeimdallValidatorNonce_decoded (g : Globals) (env : Env) (v : Z)
  (r : Validator.Response) :
  http_Get env (validator_url g v) = inr (mkHttpResponse (Encoding r, None)) ->
  getHeimdallValidatorNonce g env v =
    ([EvHttpGet (validator_url g v)],
     Normal (if String.eqb (Validator.Error r) ""
             then Validator.Nonce (Validator.result r) else -1, None)).
Proof.
  intros H. unfold getHeimdallValidatorNonce. fold (validator_url g v).
  rewrite H. unfold_go. simpl.
  destruct (String.eqb (Validator.Error r) ""); reflexivity.
Qed.

(** Whatever the world answers, the fetch returns normally, with an error
    or with a nonce, after exactly one request. *)
Lemma getHeimdallValidatorNonce_total (g : Globals) (env : Env) (v : Z) :
  exists n err,
    getHeimdallValidatorNonce g env v = ([EvHttpGet (validator_url g v)], Normal (n, err)).
Proof.
  unfold getHeimdallValidatorNonce. fold (validator_url g v). unfold_go.
  repeat (branch; simpl); eauto.
Qed.

(** C6, as the code has it.  On a decoded reply the destination-nonce fetch
    returns -1 when the error field is not empty, whatever the nonce field
    holds, and the nonce field otherwise; so the value -1 comes back exactly
    when the error field is not empty or the nonce field is itself -1. *)
Theorem destination_nonce_sentinel :
  forall (g : Globals) (env : Env) (v : Z) (r : Validator.Response),
    http_Get env (validator_url g v) = inr (mkHttpResponse (Encoding r, None)) ->
    outcome (getHeimdallValidatorNonce g env v) =
      Normal (if String.eqb (Validator.Error r) ""
              then Validator.Nonce (Validator.result r) else -1, None)
    /\ (outcome (getHeimdallValidatorNonce g env v) = Normal (-1, None) <->
        Validator.Error r <> "" \/ Validator.Nonce (Validator.result r) = -1).
Proof.
  intros g env v r H.
  rewrite (getHeimdallValidatorNonce_decoded g env v r H). unfold outcome, snd.
  split; [reflexivity|].
  destruct (String.eqb_spec (Validator.Error r) "") as [He|He]; split.
  - intros [= Hn]. right. exact Hn.
  - intros [Hne|Hn]; [contradiction | rewrite Hn; reflexivity].
  - intros _. left. exact He.
  - reflexivity.
Qed.

Lemma destination_nonce_sentinel_witness :
  outcome (getHeimdallValidatorNonce Sample.g
             (Sample.env (Sample.validator 3 "validator not found") [] 0 0) 7)
    = Normal (-1, None).
Proof.
  apply (proj1 (destination_nonce_sentinel Sample.g
                  (Sample.env (Sample.validator 3 "validator not found") [] 0 0) 7
                  (Sample.validator 3 "validator not found") eq_refl)).
Defined.

(** C6, as the claim states it, fails: a reply with an empty error field and
    the nonce field -1 also comes back as -1 with no error. *)
Lemma sentinel_with_empty_error :
  Validator.Error (Sample.validator (-1) "") = ""
  /\ getHeimdallValidatorNonce Sample.g
       (Sample.env (Sample.validator (-1) "") [] 0 0) 7
     = ([EvHttpGet "http://heimdall/staking/validator/7"], Normal (-1, None)).
Proof. split; reflexivity. Qed.

(** The run of [querySubGraph] when the request is built, sent, answered
    and read. *)
Lemma querySubGraph_answered (env : Env) (url : string) (query : JsonMap)
  (data : Bytes Stake.Response) :
  http_NewRequest env "POST" url = None ->
  client_Do env url query = inr (mkHttpResponse (data, None)) ->
  querySubGraph env url query = ([EvHttpPost url query], Normal (data, None)).
Proof.
  intros H1 H2. unfold querySubGraph. rewrite H1. unfold_go. rewrite H2.
  reflexivity.
Qed.

(** [querySubGraph] always returns, after at most one request. *)
Lemma querySubGraph_total (env : Env) (url : string) (query : JsonMap) :
  exists t data err,
    querySubGraph env url query = (t, Normal (data, err))
    /\ (t = [] \/ t = [EvHttpPost url query])
    /\ (err = None -> t = [EvHttpPost url query]).
Proof.
  unfold querySubGraph. unfold_go.
  destruct (http_NewRequest env "POST" url).
  - do 3 eexists. split; [reflexivity|]. split; [auto | discriminate].
  - destruct (client_Do env url query) as [e|[[d e]]]; simpl;
      do 3 eexists; (split; [reflexivity|]); auto.
Qed.



(* ===================================================================== *)
(** ** The comparison of the two nonces *)
(* ===================================================================== *)

(** Every run of [processStakeUpdate] announces exactly one correction: the
    one it was called for. *)
Lemma corrections_processStakeUpdate (g : Globals) (env : Env) (v n : Z) :
  corrections (trace (processStakeUpdate g env v n)) = [(v, n)].
Proof.
  unfold processStakeUpdate. unfold_go.
  repeat (branch; simpl); reflexivity.
Qed.

(** One pass of the loop once the destination nonce is known. *)
Lemma iteration_compared (g : Globals) (env : Env) (vars : LoopVars) (dst : Z) :
  outcome (getHeimdallValidatorNonce g env (validatorId vars)) = Normal (dst, None) ->
  iteration g env vars =
    if ethereumNonce vars >? dst then
      bind ([EvHttpGet (validator_url g (validatorId vars));
             comparison_line (ethereumNonce vars) dst], Normal tt)
        (fun _ => bind (processStakeUpdate g env (validatorId vars) (GoInt.add dst 1))
                    (after_correction vars))
    else
      ([EvHttpGet (validator_url g (validatorId vars));
        comparison_line (ethereumNonce vars) dst;
        EvSleep (18 * time.Second)], Normal vars).
Proof.
  intros H.
  destruct (getHeimdallValidatorNonce_total g env (validatorId vars)) as (n & err & E).
  rewrite E in H. injection H as -> ->.
  unfold iteration. rewrite E. unfold_go. simpl.
  destruct (ethereumNonce vars >? dst); [|reflexivity].
  destruct (processStakeUpdate g env (validatorId vars) (GoInt.add dst 1))
    as [t [[e|]|msg|c]]; reflexivity.
Qed.

(** The corrections of a pass in which the comparison succeeds. *)
Lemma corrections_iteration_ahead (g : Globals) (env : Env) (vars : LoopVars)
  (dst : Z) :
  outcome (getHeimdallValidatorNonce g env (validatorId vars)) = Normal (dst, None) ->
  ethereumNonce vars > dst ->
  corrections (trace (iteration g env vars)) = [(validatorId vars, GoInt.add dst 1)].
Proof.
  intros H Hgt. rewrite (iteration_compared g env vars dst H).
  destruct (Z.gtb_spec (ethereumNonce vars) dst) as [_|Hle]; [|lia].
  rewrite bind_normal, trace_bind. cbn [trace fst].
  change (?a :: ?b :: ?l) with ([a; b] ++ l).
  unfold corrections. rewrite !observe_app.
  fold (corrections
          (trace (processStakeUpdate g env (validatorId vars) (GoInt.add dst 1)))).
  rewrite corrections_processStakeUpdate.
  destruct (outcome (processStakeUpdate g env (validatorId vars) (GoInt.add dst 1)))
    as [[e|]|msg|c]; reflexivity.
Qed.






(* ===================================================================== *)
(** ** One correction: lookup, staleness gate, submission *)
(* ===================================================================== *)

(** The test on line 137, on a valid clock, compares with ten minutes the
    exact age of the block, to which [2 ^ 64] seconds are added when the
    block's second plus [unixToInternal] does not fit an [int64]: saturation
    of the subtraction cannot change the answer. *)
Lemma gate_skips_value (env : Env) (blockSec : Z) :
  time.valid (time_Now env) -> GoInt.is_uint64 blockSec ->
  gate_skips env blockSec =
    (block_age env blockSec
     + (if blockSec <? 2 ^ 63 - time.unixToInternal then 0 else 2 ^ 64 * time.Second)
     <? 600 * time.Second).
Proof.
  intros Hv Hu. unfold gate_skips, time_Since.
  rewrite Unix_fields, Sub_plain by (assumption || apply wrap_is_int).
  rewrite ten_minutes.
  rewrite saturate_ltb by (unfold GoInt.minInt, GoInt.maxInt, time.Second; lia).
  unfold GoInt.of_uint64, GoInt.add. rewrite wrap_add_l.
  unfold block_age, GoInt.is_uint64, time.unixToInternal, time.Second in *.
  destruct (Z.ltb_spec blockSec (2 ^ 63 - 62135596800)) as [Hlow | Hhigh].
  - rewrite wrap_small
      by (unfold GoInt.is_int, GoInt.minInt, GoInt.maxInt; lia).
    f_equal. lia.
  - replace (blockSec + 62135596800)
      with (blockSec + 62135596800 - 2 ^ 64 + 1 * 2 ^ 64) by lia.
    rewrite wrap_shift, wrap_small
      by (unfold GoInt.is_int, GoInt.minInt, GoInt.maxInt; lia).
    f_equal. lia.
Qed.

(** On a clock made by [time.Now] from the wall clock at second [s] and
    nanosecond [n], the age of a block is the time from second [blockSec]
    to that reading. *)
Lemma block_age_Now (env : Env) (s n mono blockSec : Z) :
  time_Now env = time.Now s n mono ->
  - 2 ^ 62 <= s <= 2 ^ 62 -> 0 <= n < 1000000000 ->
  block_age env blockSec = (s - blockSec) * time.Second + n.
Proof.
  intros Hnow Hs Hn. unfold block_age. rewrite Hnow.
  destruct (Now_reads s n mono Hs Hn) as (-> & -> & _).
  unfold time.Second. lia.
Qed.

(** For a block timestamp that is stored as it is, the test on line 137
    compares the exact age of the block with ten minutes. *)
Lemma gate_test (env : Env) (blockSec : Z) :
  time.valid (time_Now env) -> plain_timestamp blockSec ->
  gate_skips env blockSec = (block_age env blockSec <? 600 * time.Second).
Proof.
  intros Hv Hp. unfold plain_timestamp, time.unixToInternal in Hp.
  rewrite gate_skips_value
    by (assumption || (unfold GoInt.is_uint64; lia)).
  unfold time.unixToInternal.
  destruct (Z.ltb_spec blockSec (2 ^ 63 - 62135596800)); [ | lia ].
  now rewrite Z.add_0_r.
Qed.

(** A block that is at least ten minutes old passes the test on line 137,
    whatever its timestamp. *)
Lemma gate_old_block (env : Env) (blockSec : Z) :
  time.valid (time_Now env) -> GoInt.is_uint64 blockSec ->
  600 * time.Second <= block_age env blockSec ->
  gate_skips env blockSec = false.
Proof.
  intros Hv Hu Hold. rewrite gate_skips_value by assumption.
  apply Z.ltb_ge. unfold time.Second in *.
  destruct (blockSec <? 2 ^ 63 - time.unixToInternal); lia.
Qed.

(** The run of [processStakeUpdate] when the lookup yields at least one
    record and the block of the first one is found. *)
Lemma processStakeUpdate_found (g : Globals) (env : Env) (v n : Z)
  (r : Stake.Update) (rest : list Stake.Update) (b blockSec : Z) :
  record_lookup g env v n (r :: rest) ->
  block_resolved env r b blockSec ->
  processStakeUpdate g env v n =
    if gate_skips env blockSec then
      (lookup_events g v n b
         ++ [EvPrintln
               [VString "Block time is less than ten minutes, skipping stake-update"]],
       Normal None)
    else
      (lookup_events g v n b
         ++ [EvPrintln (VString "heimdallcli" :: List.map VString (heimdallcli_args r g));
             EvExec "heimdallcli" (heimdallcli_args r g);
             EvPrintln
               match cmd_Run env "heimdallcli" (heimdallcli_args r g) with
               | Some e =>
                   [VString "Error running heimdallcli stake update for validator: ";
                    VInt v; VError e]
               | None => [VString separator]
               end],
       Normal (cmd_Run env "heimdallcli" (heimdallcli_args r g))).
Proof.
  intros [Hreq Hdo] [Hblock Htime].
  unfold processStakeUpdate.
  rewrite (querySubGraph_answered env _ _ _ Hreq Hdo).
  unfold_go.
  cbn -[time_Since GoInt.mul getStakeUpdateQuery heimdallcli_args Z.ltb time.Unix
        GoInt.of_uint64].
  rewrite Hblock.
  cbn -[time_Since GoInt.mul getStakeUpdateQuery heimdallcli_args Z.ltb time.Unix
        GoInt.of_uint64].
  rewrite Htime.
  cbn -[time_Since GoInt.mul getStakeUpdateQuery heimdallcli_args Z.ltb time.Unix
        GoInt.of_uint64].
  change (time_Since env (time.Unix (GoInt.of_uint64 blockSec) 0) <? _)
    with (gate_skips env blockSec).
  destruct (gate_skips env blockSec).
  - reflexivity.
  - destruct (cmd_Run env "heimdallcli" (heimdallcli_args r g)); reflexivity.
Qed.

(** Whatever the world answers, a subprocess started by
    [processStakeUpdate] is [heimdallcli] with the arguments of the first
    record of the decoded lookup. *)
Lemma execs_processStakeUpdate_shape (g : Globals) (env : Env) (v n : Z) :
  forall name args,
    In (name, args) (execs (trace (processStakeUpdate g env v n))) ->
    exists r rest,
      record_lookup g env v n (r :: rest)
      /\ name = "heimdallcli" /\ args = heimdallcli_args r g.
Proof.
  intros name args. unfold record_lookup, processStakeUpdate, querySubGraph.
  destruct (http_NewRequest env "POST" (PolygonSubGraphUrl g)) eqn:Hreq;
    [intros []|].
  unfold_go.
  destruct (client_Do env (PolygonSubGraphUrl g) (getStakeUpdateQuery v n))
    as [e|[[[e|[[|r rest]]] [err|]]]] eqn:Hdo;
    cbn -[getStakeUpdateQuery heimdallcli_args time_Since GoInt.mul Z.ltb];
    repeat (branch;
            cbn -[getStakeUpdateQuery heimdallcli_args time_Since GoInt.mul Z.ltb]);
    lazymatch goal with
    | |- False -> _ => intros []
    | |- _ \/ False -> _ => intros [[= <- <-]|[]]; exists r, rest; auto
    end.
Qed.

Lemma sleeps_processStakeUpdate (g : Globals) (env : Env) (v n : Z) :
  sleeps (trace (processStakeUpdate g env v n)) = [].
Proof.
  unfold processStakeUpdate. unfold_go. repeat (branch; simpl); reflexivity.
Qed.

Lemma comparisons_processStakeUpdate (g : Globals) (env : Env) (v n : Z) :
  comparisons (trace (processStakeUpdate g env v n)) = [].
Proof.
  unfold processStakeUpdate. unfold_go. repeat (branch; simpl); reflexivity.
Qed.

Lemma source_queries_processStakeUpdate (g : Globals) (env : Env) (v n : Z) :
  source_queries (trace (processStakeUpdate g env v n)) = [].
Proof.
  unfold processStakeUpdate. unfold_go. repeat (branch; simpl); reflexivity.
Qed.

(** One pass of the loop when the source is ahead, the lookup yields at
    least one record and the block of the first one is found. *)
Lemma iteration_found (g : Globals) (env : Env) (vars : LoopVars) (dst : Z)
  (r : Stake.Update) (rest : list Stake.Update) (b blockSec : Z) :
  outcome (getHeimdallValidatorNonce g env (validatorId vars)) = Normal (dst, None) ->
  ethereumNonce vars > dst ->
  record_lookup g env (validatorId vars) (GoInt.add dst 1) (r :: rest) ->
  block_resolved env r b blockSec ->
  execs (trace (iteration g env vars)) =
    (if gate_skips env blockSec then []
     else [("heimdallcli", heimdallcli_args r g)])
  /\ sleeps (trace (iteration g env vars)) =
       (if gate_skips env blockSec then [18 * time.Second]
        else match cmd_Run env "heimdallcli" (heimdallcli_args r g) with
             | Some _ => [time.Second]
             | None => [18 * time.Second]
             end)
  /\ outcome (iteration g env vars) = Normal vars.
Proof.
  intros H Hgt Hrec Hblk.
  rewrite (iteration_compared g env vars dst H).
  destruct (Z.gtb_spec (ethereumNonce vars) dst) as [_|Hle]; [|lia].
  rewrite (processStakeUpdate_found g env _ _ r rest b blockSec Hrec Hblk).
  destruct (gate_skips env blockSec).
  - repeat split.
  - destruct (cmd_Run env "heimdallcli" (heimdallcli_args r g)); repeat split.
Qed.

(** C5.  When the source is ahead, the record and its block are found, the
    clock holds a valid time and the block's timestamp is below
    [2 ^ 63 - 62135596800], the pass starts no subprocess exactly when the
    block is strictly younger than ten minutes; such a skip makes
    [processStakeUpdate] return no error, and the pass ends normally with the
    18-second sleep.  At an age of exactly ten minutes [heimdallcli] is
    started. *)
Theorem staleness_gate :
  forall (g : Globals) (env : Env) (vars : LoopVars) (dst : Z)
         (r : Stake.Update) (rest : list Stake.Update) (b blockSec : Z),
    outcome (getHeimdallValidatorNonce g env (validatorId vars)) = Normal (dst, None) ->
    ethereumNonce vars > dst ->
    record_lookup g env (validatorId vars) (GoInt.add dst 1) (r :: rest) ->
    block_resolved env r b blockSec ->
    time.valid (time_Now env) ->
    plain_timestamp blockSec ->
    (execs (trace (iteration g env vars)) = []
     <-> block_age env blockSec < 10 * time.Minute)
    /\ (block_age env blockSec < 10 * time.Minute ->
        outcome (processStakeUpdate g env (validatorId vars) (GoInt.add dst 1))
          = Normal None
        /\ outcome (iteration g env vars) = Normal vars
        /\ sleeps (trace (iteration g env vars)) = [18 * time.Second])
    /\ (block_age env blockSec = 10 * time.Minute ->
        execs (trace (iteration g env vars))
          = [("heimdallcli", heimdallcli_args r g)]).
Proof.
  intros g env vars dst r rest b blockSec H Hgt Hrec Hblk Hclock Hplain.
  destruct (iteration_found g env vars dst r rest b blockSec H Hgt Hrec Hblk)
    as (Hexec & Hsleep & Hout).
  rewrite Hexec, Hsleep, Hout.
  rewrite (processStakeUpdate_found g env _ _ r rest b blockSec Hrec Hblk).
  rewrite (gate_test env blockSec Hclock Hplain).
  change (10 * time.Minute) with (600 * time.Second).
  destruct (Z.ltb_spec (block_age env blockSec) (600 * time.Second)) as [Hy|Ho].
  - repeat split; auto. lia.
  - repeat split; try discriminate; try lia.
Qed.

Lemma staleness_gate_witness :
  execs
    (trace (iteration Sample.g
              (Sample.env (Sample.validator 3 "") [Sample.record4] 1700000000 1700000600)
              {| validatorId := 7; ethereumNonce := 5 |}))
  = [("heimdallcli", heimdallcli_args Sample.record4 Sample.g)].
Proof.
  refine (proj2 (proj2 (staleness_gate Sample.g
                   (Sample.env (Sample.validator 3 "") [Sample.record4]
                      1700000000 1700000600)
                   {| validatorId := 7; ethereumNonce := 5 |} 3
                   Sample.record4 [] 18000000 1700000000 eq_refl _ _ _ _ _)) eq_refl).
  - simpl. lia.
  - split; reflexivity.
  - split; reflexivity.
  - repeat split; vm_compute; (reflexivity || discriminate).
  - split; vm_compute; (reflexivity || discriminate).
Defined.

(** C5, counterexample.  The clock is at second 1793387227 and the origin
    chain stamps the block with second [2 ^ 63 - 1], far in the future: the
    age of the block is negative, so the block is younger than ten minutes,
    and yet the pass starts [heimdallcli].  [time.Unix] adds 62135596800 to
    the second in an [int64]; the sum wraps to a second long before the
    clock's, and [Sub] answers with the largest duration. *)
Lemma far_future_block_is_submitted :
  outcome (getHeimdallValidatorNonce Sample.g
             (Sample.env (Sample.validator 3 "") [Sample.record4]
                9223372036854775807 1793387227) 7) = Normal (3, None)
  /\ time.valid
       (time_Now (Sample.env (Sample.validator 3 "") [Sample.record4]
                    9223372036854775807 1793387227))
  /\ block_resolved
       (Sample.env (Sample.validator 3 "") [Sample.record4]
          9223372036854775807 1793387227)
       Sample.record4 18000000 9223372036854775807
  /\ block_age
       (Sample.env (Sample.validator 3 "") [Sample.record4]
          9223372036854775807 1793387227)
       9223372036854775807 < 10 * time.Minute
  /\ execs
       (trace (iteration Sample.g
                 (Sample.env (Sample.validator 3 "") [Sample.record4]
                    9223372036854775807 1793387227)
                 {| validatorId := 7; ethereumNonce := 5 |}))
     = [("heimdallcli", heimdallcli_args Sample.record4 Sample.g)].
Proof.
  split; [reflexivity|].
  split; [repeat split; vm_compute; (reflexivity || discriminate)|].
  split; [split; reflexivity|]. split; reflexivity.
Qed.

(** C8.  A subprocess started by [processStakeUpdate] is always
    [heimdallcli], and its arguments carry the text of the fields block,
    validatorId, logIndex, nonce, totalStaked and transactionHash of the
    first decoded record, unchanged; when the record and its block are found
    and the block is at least ten minutes old, exactly one such subprocess
    is started (the clock holding a valid time and the block's timestamp
    being a [uint64], as they always are). *)
Theorem record_fields_verbatim :
  forall (g : Globals) (env : Env) (v n : Z),
    (forall name args,
        In (name, args) (execs (trace (processStakeUpdate g env v n))) ->
        exists r rest,
          record_lookup g env v n (r :: rest)
          /\ name = "heimdallcli"
          /\ args = ["tx"; "staking"; "stake-update";
                     "--block-number"; Stake.Block r;
                     "--id"; Stake.ValidatorID r;
                     "--log-index"; Stake.LogIndex r;
                     "--nonce"; Stake.Nonce r;
                     "--staked-amount"; Stake.TotalStaked r;
                     "--tx-hash"; Stake.TransactionHash r;
                     "--chain-id"; HeimdallChainId g])
    /\ (forall r rest b blockSec,
          record_lookup g env v n (r :: rest) ->
          block_resolved env r b blockSec ->
          time.valid (time_Now env) ->
          GoInt.is_uint64 blockSec ->
          10 * time.Minute <= block_age env blockSec ->
          execs (trace (processStakeUpdate g env v n)) =
            [("heimdallcli",
              ["tx"; "staking"; "stake-update";
               "--block-number"; Stake.Block r;
               "--id"; Stake.ValidatorID r;
               "--log-index"; Stake.LogIndex r;
               "--nonce"; Stake.Nonce r;
               "--staked-amount"; Stake.TotalStaked r;
               "--tx-hash"; Stake.TransactionHash r;
               "--chain-id"; HeimdallChainId g])]).
Proof.
  intros g env v n. split.
  - apply execs_processStakeUpdate_shape.
  - intros r rest b blockSec Hrec Hblk Hclock Hu Hold.
    rewrite (processStakeUpdate_found g env v n r rest b blockSec Hrec Hblk).
    change (10 * time.Minute) with (600 * time.Second) in Hold.
    rewrite (gate_old_block env blockSec Hclock Hu Hold).
    reflexivity.
Qed.

Lemma record_fields_verbatim_witness :
  execs
    (trace (processStakeUpdate Sample.g
              (Sample.env (Sample.validator 3 "") [Sample.record4] 1700000000 1700001200)
              7 4))
  = [("heimdallcli",
      ["tx"; "staking"; "stake-update"; "--block-number"; "18000000"; "--id"; "7";
       "--log-index"; "12"; "--nonce"; "4"; "--staked-amount"; "1000000000000000000";
       "--tx-hash"; "0xabc"; "--chain-id"; "heimdall-137"])].
Proof.
  refine (proj2 (record_fields_verbatim Sample.g
                   (Sample.env (Sample.validator 3 "") [Sample.record4]
                      1700000000 1700001200) 7 4)
                Sample.record4 [] 18000000 1700000000 _ _ _ _ _).
  - split; reflexivity.
  - split; reflexivity.
  - repeat split; vm_compute; (reflexivity || discriminate).
  - split; vm_compute; (reflexivity || discriminate).
  - vm_compute. discriminate.
Defined.

(** C2, as the code has it.  A lookup that yields more than one record does
    not fail on that account: [processStakeUpdate] takes the record at
    position 0 and runs exactly as it does when that record is the only
    one. *)
Theorem first_of_several_records :
  forall (g : Globals) (env : Env) (v n : Z) (r r' : Stake.Update)
         (rest : list Stake.Update),
    processStakeUpdate g (with_updates env (r :: r' :: rest)) v n
    = processStakeUpdate g (with_updates env [r]) v n.
Proof.
  intros. unfold processStakeUpdate, querySubGraph. simpl.
  destruct (http_NewRequest env "POST" (PolygonSubGraphUrl g)); reflexivity.
Qed.

(** C2, as the claim states it, fails: a lookup that yields two records
    returns no error and goes on to submit the first of them. *)
Lemma two_records_are_accepted :
  record_lookup Sample.g
    (Sample.env (Sample.validator 3 "") [Sample.record4; Sample.record9]
       1700000000 1700001200)
    7 4 [Sample.record4; Sample.record9]
  /\ outcome
       (processStakeUpdate Sample.g
          (Sample.env (Sample.validator 3 "") [Sample.record4; Sample.record9]
             1700000000 1700001200) 7 4)
     = Normal None
  /\ execs
       (trace (processStakeUpdate Sample.g
                 (Sample.env (Sample.validator 3 "") [Sample.record4; Sample.record9]
                    1700000000 1700001200) 7 4))
     = [("heimdallcli", heimdallcli_args Sample.record4 Sample.g)].
Proof. repeat split. Qed.

(* ===================================================================== *)
(** ** The poll loop and the startup *)
(* ===================================================================== *)

(** A pass in which the destination-nonce fetch returns an error. *)
Lemma iteration_fetch_error (g : Globals) (env : Env) (vars : LoopVars) (n : Z) (e : error) :
  outcome (getHeimdallValidatorNonce g env (validatorId vars)) = Normal (n, Some e) ->
  iteration g env vars =
    ([EvHttpGet (validator_url g (validatorId vars));
      EvPrintln [VString "Error getting heimdall nonce for validator: ";
                 VInt (validatorId vars); VError e];
      EvSleep time.Second], Normal vars).
Proof.
  intros H.
  destruct (getHeimdallValidatorNonce_total g env (validatorId vars)) as (n' & err & E).
  rewrite E in H. injection H as -> ->.
  unfold iteration. rewrite E. reflexivity.
Qed.

(** The trace and outcome of a pass, in all cases. *)
Lemma iteration_cases (g : Globals) (env : Env) (vars : LoopVars) :
  (exists n e,
      outcome (getHeimdallValidatorNonce g env (validatorId vars)) = Normal (n, Some e)
      /\ iteration g env vars =
           ([EvHttpGet (validator_url g (validatorId vars));
             EvPrintln [VString "Error getting heimdall nonce for validator: ";
                        VInt (validatorId vars); VError e];
             EvSleep time.Second], Normal vars))
  \/ (exists dst,
      outcome (getHeimdallValidatorNonce g env (validatorId vars)) = Normal (dst, None)
      /\ iteration g env vars =
           if ethereumNonce vars >? dst then
             bind ([EvHttpGet (validator_url g (validatorId vars));
                    comparison_line (ethereumNonce vars) dst], Normal tt)
               (fun _ => bind (processStakeUpdate g env (validatorId vars)
                                 (GoInt.add dst 1))
                           (after_correction vars))
           else
             ([EvHttpGet (validator_url g (validatorId vars));
               comparison_line (ethereumNonce vars) dst;
               EvSleep (18 * time.Second)], Normal vars)).
Proof.
  destruct (getHeimdallValidatorNonce_total g env (validatorId vars))
    as (n & [e|] & E).
  - left. exists n, e. split; [rewrite E; reflexivity|].
    apply (iteration_fetch_error g env vars n e). rewrite E. reflexivity.
  - right. exists n. split; [rewrite E; reflexivity|].
    apply iteration_compared. rewrite E. reflexivity.
Qed.

(** A pass asks for no source nonce, compares with the source nonce it was
    given, and hands the variables on unchanged. *)
Lemma iteration_invariant (g : Globals) (env : Env) (vars : LoopVars) :
  source_queries (trace (iteration g env vars)) = []
  /\ Forall (fun c => fst c = ethereumNonce vars)
       (comparisons (trace (iteration g env vars)))
  /\ (forall vars', outcome (iteration g env vars) = Normal vars' -> vars' = vars).
Proof.
  destruct (iteration_cases g env vars) as [(n & e & _ & ->)|(dst & _ & ->)].
  - repeat split; [repeat constructor | intros vars' [= <-]; reflexivity].
  - destruct (ethereumNonce vars >? dst).
    + rewrite bind_normal, trace_bind, outcome_bind. cbn [trace fst].
      change (?a :: ?b :: ?l) with ([a; b] ++ l).
      unfold source_queries, comparisons. rewrite !observe_app.
      fold (source_queries (trace (processStakeUpdate g env (validatorId vars)
                                     (GoInt.add dst 1)))).
      fold (comparisons (trace (processStakeUpdate g env (validatorId vars)
                                  (GoInt.add dst 1)))).
      rewrite source_queries_processStakeUpdate, comparisons_processStakeUpdate.
      destruct (outcome (processStakeUpdate g env (validatorId vars) (GoInt.add dst 1)))
        as [[e|]|msg|c]; simpl;
        (repeat split; [repeat constructor | intros vars' [= <-]; reflexivity
                                           || discriminate]).
    + repeat split; [repeat constructor | intros vars' [= <-]; reflexivity].
Qed.

(** The same holds for any number of passes. *)
Lemma loop_invariant (g : Globals) (envs : nat -> Env) (vars : LoopVars) :
  forall fuel i,
    source_queries (trace (loop g envs i fuel vars)) = []
    /\ Forall (fun c => fst c = ethereumNonce vars)
         (comparisons (trace (loop g envs i fuel vars)))
    /\ (forall st, outcome (loop g envs i fuel vars) = Normal st -> st = Looping vars).
Proof.
  induction fuel as [|fuel IH]; intros i.
  - repeat split; [constructor | intros st [= <-]; reflexivity].
  - cbn [loop]. rewrite trace_bind, outcome_bind.
    destruct (iteration_invariant g (envs i) vars) as (Hq & Hc & Hv).
    unfold source_queries, comparisons in *. rewrite !observe_app, Hq.
    destruct (outcome (iteration g (envs i) vars)) as [vars'|msg|c] eqn:Ho.
    + rewrite (Hv vars' eq_refl).
      destruct (IH (S i)) as (Hq' & Hc' & Hv').
      rewrite Hq'. repeat split; [apply Forall_app; split; assumption | exact Hv'].
    + cbn [observe flat_map]. rewrite !app_nil_r.
      repeat split; [assumption | discriminate].
    + cbn [observe flat_map]. rewrite !app_nil_r.
      repeat split; [assumption | discriminate].
Qed.

(** The source-nonce fetch always returns, after at most one request; when
    it returns no error the request was sent. *)
Lemma getEthereumValidatorNonce_total (g : Globals) (env : Env) (v : Z) :
  exists t n err,
    getEthereumValidatorNonce g env v = (t, Normal (n, err))
    /\ (t = [] \/ t = [EvHttpPost (PolygonSubGraphUrl g) (getLatestNonceQuery v)])
    /\ (err = None -> t = [EvHttpPost (PolygonSubGraphUrl g) (getLatestNonceQuery v)]).
Proof.
  unfold getEthereumValidatorNonce.
  destruct (querySubGraph_total env (PolygonSubGraphUrl g) (getLatestNonceQuery v))
    as (t & data & err & -> & Ht & Hnone).
  rewrite bind_normal.
  destruct err as [e|].
  - do 3 eexists. split; [reflexivity|]. cbn [trace fst ret]. rewrite app_nil_r.
    split; [assumption | discriminate].
  - rewrite (Hnone eq_refl).
    destruct data as [e|[[|first rest]]]; unfold_go; simpl;
      try (do 3 eexists; split; [reflexivity|]; auto).
    destruct (strconv.Atoi (Stake.Nonce first)) as [n [e|]]; simpl;
      do 3 eexists; (split; [reflexivity|]); auto.
Qed.

(** [main] once the validator id is parsed and the origin chain client is
    connected. *)
Lemma main_started (g : Globals) (w : World) (fuel : nat) (s : string) (v : Z) :
  nth_error (os_Args w) 1 = Some s ->
  strconv.Atoi s = (v, None) ->
  ethclient_Dial w (EthereumRPCUrl g) = None ->
  main g w fuel =
    bind ([EvDial (EthereumRPCUrl g)], Normal tt)
      (fun _ =>
         bind (getEthereumValidatorNonce g (at_startup w) v)
           (fun r =>
              match snd r with
              | Some err =>
                  ([EvPrintln [VString "Error getting ethereum nonce for validator: ";
                               VInt v; VError err]], Normal Returned)
              | None =>
                  loop g (at_iteration w) 0 fuel
                    {| validatorId := v; ethereumNonce := fst r |}
              end)).
Proof.
  intros Hargs Hatoi Hdial. unfold main, index. rewrite Hargs.
  destruct (getEthereumValidatorNonce_total g (at_startup w) v)
    as (t & n & err & E & _).
  unfold_go. rewrite Hatoi, Hdial, E. destruct err; [reflexivity|].
  cbn [snd fst]. destruct (loop g (at_iteration w) 0 fuel _); reflexivity.
Qed.

(** C7.  When the startup reaches the loop with source nonce [src], then
    however many passes are run, the whole run asks the indexed graph for
    the latest nonce exactly once (at startup), every comparison printed by a
    pass has [src] as its source nonce, and the loop variables still hold
    [src]. *)
Theorem source_nonce_resolved_once :
  forall (g : Globals) (w : World) (fuel : nat) (s : string) (v src : Z)
         (t : list Event),
    nth_error (os_Args w) 1 = Some s ->
    strconv.Atoi s = (v, None) ->
    ethclient_Dial w (EthereumRPCUrl g) = None ->
    getEthereumValidatorNonce g (at_startup w) v = (t, Normal (src, None)) ->
    source_queries (trace (main g w fuel)) = [PolygonSubGraphUrl g]
    /\ (exists passes,
          trace (main g w fuel) =
            EvDial (EthereumRPCUrl g)
              :: EvHttpPost (PolygonSubGraphUrl g) (getLatestNonceQuery v) :: passes
          /\ source_queries passes = [])
    /\ Forall (fun c => fst c = src) (comparisons (trace (main g w fuel)))
    /\ (forall st, outcome (main g w fuel) = Normal st ->
                   st = Looping {| validatorId := v; ethereumNonce := src |}).
Proof.
  intros g w fuel s v src t Hargs Hatoi Hdial Hsrc.
  rewrite (main_started g w fuel s v Hargs Hatoi Hdial).
  destruct (getEthereumValidatorNonce_total g (at_startup w) v)
    as (t' & n & err & E & _ & Hpost).
  rewrite Hsrc in E. injection E as <- <- <-. rewrite (Hpost eq_refl) in *.
  rewrite Hsrc, !bind_normal. cbn [snd fst trace outcome].
  destruct (loop_invariant g (at_iteration w)
              {| validatorId := v; ethereumNonce := src |} fuel 0%nat)
    as (Hq & Hc & Hst).
  split; [|split; [|split]].
  - unfold source_queries in *. rewrite !observe_app, Hq. reflexivity.
  - eexists. split; [reflexivity | exact Hq].
  - unfold comparisons in *. rewrite !observe_app. exact Hc.
  - exact Hst.
Qed.

Lemma source_nonce_resolved_once_witness :
  Forall (fun c => fst c = 4)
    (comparisons
       (trace (main Sample.g
                 Sample.world_young_block
                 3))).
Proof.
  refine (proj1 (proj2 (proj2 (source_nonce_resolved_once Sample.g
            Sample.world_young_block
            3 "7" 7 4 [EvHttpPost "http://graph" (getLatestNonceQuery 7)]
            eq_refl eq_refl eq_refl eq_refl)))).
Defined.

(** C10.  When the source-nonce fetch at startup returns an error, [main]
    prints it and returns: the process ends with status 0 after at most the
    one request of that fetch, without a comparison or a sleep, so the loop is
    never entered and nothing is retried. *)
Theorem startup_fetch_error_returns :
  forall (g : Globals) (w : World) (fuel : nat) (s : string) (v n : Z)
         (t : list Event) (e : error),
    nth_error (os_Args w) 1 = Some s ->
    strconv.Atoi s = (v, None) ->
    ethclient_Dial w (EthereumRPCUrl g) = None ->
    getEthereumValidatorNonce g (at_startup w) v = (t, Normal (n, Some e)) ->
    main g w fuel =
      (EvDial (EthereumRPCUrl g)
         :: t ++ [EvPrintln [VString "Error getting ethereum nonce for validator: ";
                             VInt v; VError e]],
       Normal Returned)
    /\ exit_status (outcome (main g w fuel)) = Some 0
    /\ (t = [] \/ t = [EvHttpPost (PolygonSubGraphUrl g) (getLatestNonceQuery v)])
    /\ comparisons (trace (main g w fuel)) = []
    /\ sleeps (trace (main g w fuel)) = [].
Proof.
  intros g w fuel s v n t e Hargs Hatoi Hdial Hsrc.
  destruct (getEthereumValidatorNonce_total g (at_startup w) v)
    as (t' & n' & err & E & Ht & _).
  rewrite Hsrc in E. injection E as <- <- <-.
  assert (Hmain : main g w fuel =
            (EvDial (EthereumRPCUrl g)
               :: t ++ [EvPrintln [VString "Error getting ethereum nonce for validator: ";
                                   VInt v; VError e]],
             Normal Returned)).
  { rewrite (main_started g w fuel s v Hargs Hatoi Hdial), Hsrc. reflexivity. }
  rewrite Hmain. repeat split; try assumption;
    destruct Ht as [-> | ->]; reflexivity.
Qed.

Lemma startup_fetch_error_returns_witness :
  main Sample.g Sample.world_graph_down 5
  = ([EvDial "http://eth";
      EvHttpPost "http://graph" (getLatestNonceQuery 7);
      EvPrintln [VString "Error getting ethereum nonce for validator: ";
                 VInt 7; VError (External "connection refused")]],
     Normal Returned).
Proof.
  exact (proj1 (startup_fetch_error_returns Sample.g
                  Sample.world_graph_down
                  5 "7" 7 0 [EvHttpPost "http://graph" (getLatestNonceQuery 7)]
                  (External "connection refused") eq_refl eq_refl eq_refl eq_refl)).
Defined.

(** The outcome of [processStakeUpdate]: it returns, unless the decoded
    lookup is empty, in which case indexing position 0 panics. *)
Lemma processStakeUpdate_outcome (g : Globals) (env : Env) (v n : Z) :
  (exists err, outcome (processStakeUpdate g env v n) = Normal err)
  \/ (record_lookup g env v n []
      /\ outcome (processStakeUpdate g env v n)
         = Panic "runtime error: index out of range [0] with length 0").
Proof.
  unfold record_lookup, processStakeUpdate, querySubGraph.
  destruct (http_NewRequest env "POST" (PolygonSubGraphUrl g)) eqn:Hreq;
    [left; eexists; reflexivity|].
  unfold_go.
  destruct (client_Do env (PolygonSubGraphUrl g) (getStakeUpdateQuery v n))
    as [e|[[[e|[[|r rest]]] [err|]]]] eqn:Hdo;
    try (left; eexists; reflexivity).
  - right. split; [split; reflexivity | reflexivity].
  - left. cbn -[getStakeUpdateQuery heimdallcli_args time_Since GoInt.mul Z.ltb].
    repeat (branch;
            cbn -[getStakeUpdateQuery heimdallcli_args time_Since GoInt.mul Z.ltb]);
      eexists; reflexivity.
Qed.

(** Every [error] value that arises in a pass is contained: the pass ends
    normally after a one-second sleep. *)
Lemma returned_errors_are_contained (g : Globals) (env : Env) (vars : LoopVars) :
  (forall n e,
      outcome (getHeimdallValidatorNonce g env (validatorId vars)) = Normal (n, Some e) ->
      outcome (iteration g env vars) = Normal vars
      /\ sleeps (trace (iteration g env vars)) = [time.Second])
  /\ (forall dst e,
        outcome (getHeimdallValidatorNonce g env (validatorId vars)) = Normal (dst, None) ->
        ethereumNonce vars > dst ->
        outcome (processStakeUpdate g env (validatorId vars) (GoInt.add dst 1))
          = Normal (Some e) ->
        outcome (iteration g env vars) = Normal vars
        /\ sleeps (trace (iteration g env vars)) = [time.Second]).
Proof.
  split.
  - intros n e H. rewrite (iteration_fetch_error g env vars n e H). split; reflexivity.
  - intros dst e H Hgt Hp. rewrite (iteration_compared g env vars dst H).
    destruct (Z.gtb_spec (ethereumNonce vars) dst); [|lia].
    rewrite bind_normal, trace_bind, outcome_bind, Hp. cbn [trace fst outcome snd].
    change (?a :: ?b :: ?l) with ([a; b] ++ l).
    unfold sleeps. rewrite !observe_app.
    fold (sleeps (trace (processStakeUpdate g env (validatorId vars) (GoInt.add dst 1)))).
    rewrite sleeps_processStakeUpdate. split; reflexivity.
Qed.

(** A pass either ends normally, handing on its variables, or panics on an
    empty lookup: there is no other way out of a pass. *)
Lemma iteration_outcome (g : Globals) (env : Env) (vars : LoopVars) :
  outcome (iteration g env vars) = Normal vars
  \/ (exists dst,
        outcome (getHeimdallValidatorNonce g env (validatorId vars)) = Normal (dst, None)
        /\ ethereumNonce vars > dst
        /\ record_lookup g env (validatorId vars) (GoInt.add dst 1) []
        /\ outcome (iteration g env vars)
           = Panic "runtime error: index out of range [0] with length 0").
Proof.
  destruct (iteration_cases g env vars) as [(n & e & _ & ->)|(dst & Hd & ->)];
    [left; reflexivity|].
  destruct (Z.gtb_spec (ethereumNonce vars) dst) as [Hgt|Hle]; [|left; reflexivity].
  destruct (processStakeUpdate_outcome g env (validatorId vars) (GoInt.add dst 1))
    as [[err Hn]|[Hrec Hp]].
  - left. rewrite bind_normal, outcome_bind, Hn. destruct err; reflexivity.
  - right. exists dst. rewrite bind_normal, outcome_bind, Hp.
    repeat split; try assumption; try lia; apply Hrec.
Qed.

(** An empty lookup makes the pass panic. *)
Lemma empty_lookup_panics (g : Globals) (env : Env) (vars : LoopVars) (dst : Z) :
  outcome (getHeimdallValidatorNonce g env (validatorId vars)) = Normal (dst, None) ->
  ethereumNonce vars > dst ->
  record_lookup g env (validatorId vars) (GoInt.add dst 1) [] ->
  outcome (iteration g env vars)
  = Panic "runtime error: index out of range [0] with length 0".
Proof.
  intros H Hgt [Hreq Hdo]. rewrite (iteration_compared g env vars dst H).
  destruct (Z.gtb_spec (ethereumNonce vars) dst); [|lia].
  rewrite bind_normal, outcome_bind. cbn [outcome snd].
  unfold processStakeUpdate.
  rewrite (querySubGraph_answered env _ _ _ Hreq Hdo). reflexivity.
Qed.

(** C4 fails on the code.  In a run where the record lookup of the first
    pass decodes to an empty list, the process panics in that pass: it ends
    with status 2, without the one-second sleep and without a second pass,
    however long it would otherwise have run. *)
Theorem empty_lookup_ends_the_process :
  forall fuel : nat,
    outcome (program Sample.world_empty_lookup (S fuel))
      = Panic "runtime error: index out of range [0] with length 0"
    /\ exit_status (outcome (program Sample.world_empty_lookup (S fuel))) = Some 2
    /\ sleeps (trace (program Sample.world_empty_lookup (S fuel))) = []
    /\ comparisons (trace (program Sample.world_empty_lookup (S fuel))) = [(4, 3)].
Proof. intros fuel. repeat split. Qed.

(* ===================================================================== *)
(** ** Further properties: inside one correction *)
(* ===================================================================== *)

(** [processStakeUpdate] either stops before the staleness gate, with an
    error or a panic and without a subprocess, or the lookup yields a record
    whose block is found. *)
Lemma processStakeUpdate_cases (g : Globals) (env : Env) (v n : Z) :
  (execs (trace (processStakeUpdate g env v n)) = []
   /\ command_lines (trace (processStakeUpdate g env v n)) = []
   /\ outcome (processStakeUpdate g env v n) <> Normal None)
  \/ (exists r rest b blockSec,
        record_lookup g env v n (r :: rest) /\ block_resolved env r b blockSec).
Proof.
  unfold record_lookup, block_resolved, processStakeUpdate, querySubGraph.
  destruct (http_NewRequest env "POST" (PolygonSubGraphUrl g)) eqn:Hreq;
    [left; repeat split; discriminate|].
  unfold_go.
  destruct (client_Do env (PolygonSubGraphUrl g) (getStakeUpdateQuery v n))
    as [e|[[[e|[[|r rest]]] [err|]]]] eqn:Hdo;
    try (left; repeat split; discriminate).
  cbn -[getStakeUpdateQuery heimdallcli_args time_Since GoInt.mul Z.ltb].
  destruct (big_SetString10 (Stake.Block r)) as [b|] eqn:Hb;
    [|left; repeat split; discriminate].
  cbn -[getStakeUpdateQuery heimdallcli_args time_Since GoInt.mul Z.ltb].
  destruct (ethClient_BlockByNumber env b) as [e|blockSec] eqn:Ht;
    [left; repeat split; discriminate|].
  right. exists r, rest, b, blockSec. auto.
Qed.

(** X1.  Whenever [processStakeUpdate] starts a subprocess, on a clock that
    holds a valid time, the lookup had yielded a record, the block of its
    first record had been found, and that block was at least ten minutes
    old or its timestamp was not below [2 ^ 63 - 62135596800], the
    timestamps that [time.Unix] does not store as they are. *)
Theorem no_submission_before_ten_minutes :
  forall (g : Globals) (env : Env) (v n : Z) (name : string) (args : list string),
    In (name, args) (execs (trace (processStakeUpdate g env v n))) ->
    time.valid (time_Now env) ->
    exists r rest b blockSec,
      record_lookup g env v n (r :: rest)
      /\ block_resolved env r b blockSec
      /\ (10 * time.Minute <= block_age env blockSec
          \/ ~ plain_timestamp blockSec).
Proof.
  intros g env v n name args Hin Hclock.
  destruct (processStakeUpdate_cases g env v n)
    as [(He & _ & _)|(r & rest & b & blockSec & Hrec & Hblk)].
  - rewrite He in Hin. destruct Hin.
  - exists r, rest, b, blockSec. repeat split; try apply Hrec; try apply Hblk.
    rewrite (processStakeUpdate_found g env v n r rest b blockSec Hrec Hblk) in Hin.
    change (10 * time.Minute) with (600 * time.Second).
    assert (Hdec : plain_timestamp blockSec \/ ~ plain_timestamp blockSec)
      by (unfold plain_timestamp; lia).
    destruct Hdec as [Hplain | Hwrapped]; [ | right; exact Hwrapped ].
    rewrite (gate_test env blockSec Hclock Hplain) in Hin.
    destruct (Z.ltb_spec (block_age env blockSec) (600 * time.Second));
      [destruct Hin | left; assumption].
Qed.

Lemma no_submission_before_ten_minutes_witness :
  exists r rest b blockSec,
    record_lookup Sample.g (Sample.passes_behind 0%nat) 7 4 (r :: rest)
    /\ block_resolved (Sample.passes_behind 0%nat) r b blockSec
    /\ (10 * time.Minute <= block_age (Sample.passes_behind 0%nat) blockSec
        \/ ~ plain_timestamp blockSec).
Proof.
  apply (no_submission_before_ten_minutes Sample.g (Sample.passes_behind 0%nat) 7 4
           "heimdallcli" (heimdallcli_args Sample.record4 Sample.g)).
  - vm_compute. left. reflexivity.
  - repeat split; vm_compute; (reflexivity || discriminate).
Defined.

(** X2.  [processStakeUpdate] returns no error only in two situations: the
    test of line 137 found [time.Since(blockTime)] below ten minutes and
    nothing was started, or [heimdallcli] was started once and reported
    success.  On a clock that holds a valid time and for a block timestamp
    below [2 ^ 63 - 62135596800], the first situation is that of a block
    younger than ten minutes, and the second that of a block at least ten
    minutes old. *)
Theorem success_means_skipped_or_submitted :
  forall (g : Globals) (env : Env) (v n : Z),
    outcome (processStakeUpdate g env v n) = Normal None ->
    exists r rest b blockSec,
      record_lookup g env v n (r :: rest)
      /\ block_resolved env r b blockSec
      /\ ((gate_skips env blockSec = true
           /\ execs (trace (processStakeUpdate g env v n)) = [])
          \/ (gate_skips env blockSec = false
              /\ cmd_Run env "heimdallcli" (heimdallcli_args r g) = None
              /\ execs (trace (processStakeUpdate g env v n))
                 = [("heimdallcli", heimdallcli_args r g)]))
      /\ (time.valid (time_Now env) -> plain_timestamp blockSec ->
          (gate_skips env blockSec = true
           <-> block_age env blockSec < 10 * time.Minute)).
Proof.
  intros g env v n Hok.
  destruct (processStakeUpdate_cases g env v n)
    as [(_ & _ & Hne)|(r & rest & b & blockSec & Hrec & Hblk)];
    [contradiction|].
  exists r, rest, b, blockSec. split; [exact Hrec|]. split; [exact Hblk|].
  rewrite (processStakeUpdate_found g env v n r rest b blockSec Hrec Hblk) in *.
  split.
  - destruct (gate_skips env blockSec).
    + left. split; reflexivity.
    + right. split; [reflexivity|]. split; [|reflexivity].
      unfold outcome, snd in Hok. injection Hok as Hok. exact Hok.
  - intros Hclock Hplain. rewrite (gate_test env blockSec Hclock Hplain).
    change (10 * time.Minute) with (600 * time.Second). apply Z.ltb_lt.
Qed.

Lemma success_means_skipped_or_submitted_witness :
  exists r rest b blockSec,
    record_lookup Sample.g (Sample.passes_behind 0%nat) 7 4 (r :: rest)
    /\ block_resolved (Sample.passes_behind 0%nat) r b blockSec
    /\ ((gate_skips (Sample.passes_behind 0%nat) blockSec = true
         /\ execs (trace (processStakeUpdate Sample.g (Sample.passes_behind 0%nat) 7 4))
            = [])
        \/ (gate_skips (Sample.passes_behind 0%nat) blockSec = false
            /\ cmd_Run (Sample.passes_behind 0%nat) "heimdallcli"
                 (heimdallcli_args r Sample.g) = None
            /\ execs (trace (processStakeUpdate Sample.g (Sample.passes_behind 0%nat) 7 4))
               = [("heimdallcli", heimdallcli_args r Sample.g)]))
    /\ (time.valid (time_Now (Sample.passes_behind 0%nat)) ->
        plain_timestamp blockSec ->
        (gate_skips (Sample.passes_behind 0%nat) blockSec = true
         <-> block_age (Sample.passes_behind 0%nat) blockSec < 10 * time.Minute)).
Proof.
  apply (success_means_skipped_or_submitted Sample.g (Sample.passes_behind 0%nat) 7 4).
  reflexivity.
Defined.

(** X3.  What is logged is what is run: the command lines printed by
    [processStakeUpdate] are, in order, exactly the commands it starts, name
    and arguments word for word. *)
Theorem logged_command_is_executed :
  forall (g : Globals) (env : Env) (v n : Z),
    command_lines (trace (processStakeUpdate g env v n))
    = List.map (fun c => List.map VString (fst c :: snd c))
        (execs (trace (processStakeUpdate g env v n))).
Proof.
  intros g env v n.
  destruct (processStakeUpdate_cases g env v n)
    as [(He & Hc & _)|(r & rest & b & blockSec & Hrec & Hblk)].
  - rewrite He, Hc. reflexivity.
  - rewrite (processStakeUpdate_found g env v n r rest b blockSec Hrec Hblk).
    destruct (gate_skips env blockSec); [reflexivity|].
    destruct (cmd_Run env "heimdallcli" (heimdallcli_args r g)); reflexivity.
Qed.

(** X4.  A record whose block text is not a signed decimal number is never
    submitted: [processStakeUpdate] returns the invalid-block-number error
    carrying that text, without asking the origin chain and without starting
    a subprocess. *)
Theorem invalid_block_text_is_an_error :
  forall (g : Globals) (env : Env) (v n : Z) (r : Stake.Update)
         (rest : list Stake.Update),
    record_lookup g env v n (r :: rest) ->
    strconv.signed_decimal (Stake.Block r) = None ->
    processStakeUpdate g env v n =
      ([EvPrintln [VString "Processing stake update for validator : "; VInt v;
                   VString " nonce : "; VInt n];
        EvHttpPost (PolygonSubGraphUrl g) (getStakeUpdateQuery v n);
        EvPrintln [VString "Unable to get block time with err : ";
                   VError (InvalidBlockNumber (Stake.Block r))]],
       Normal (Some (InvalidBlockNumber (Stake.Block r)))).
Proof.
  intros g env v n r rest [Hreq Hdo] Hbad.
  unfold processStakeUpdate.
  rewrite (querySubGraph_answered env _ _ _ Hreq Hdo).
  unfold_go. cbn -[getStakeUpdateQuery]. unfold big_SetString10. rewrite Hbad.
  reflexivity.
Qed.

Lemma invalid_block_text_is_an_error_witness :
  outcome
    (processStakeUpdate Sample.g
       (Sample.env (Sample.validator 3 "") [Sample.record_hex_block]
          1700000000 1700001200) 7 4)
  = Normal (Some (InvalidBlockNumber "0x112a880")).
Proof.
  rewrite (invalid_block_text_is_an_error Sample.g
             (Sample.env (Sample.validator 3 "") [Sample.record_hex_block]
                1700000000 1700001200) 7 4 Sample.record_hex_block []
             (conj eq_refl eq_refl) eq_refl).
  reflexivity.
Defined.

(** X5.  [getBlockTime] asks the origin chain exactly when the block text
    is a signed decimal, and then for that number; otherwise it returns the
    invalid-block-number error with the text.  For the decimal text of any
    integer [n], of any size, and a block time [u] that fits an [int64], it
    returns [time.Unix(u, 0)], an instant without monotonic reading whose
    [Unix()] is [u] and whose nanosecond is 0. *)
Theorem block_time_lookup :
  forall (env : Env) (s : string),
    block_lookups (trace (getBlockTime env s))
      = match strconv.signed_decimal s with Some b => [b] | None => [] end
    /\ (strconv.signed_decimal s = None ->
        outcome (getBlockTime env s) = Normal (zero_Time, Some (InvalidBlockNumber s)))
    /\ (forall n u,
          s = strconv.Itoa n ->
          ethClient_BlockByNumber env n = inr u ->
          0 <= u <= GoInt.maxInt ->
          getBlockTime env s = ([EvBlockByNumber n], Normal (time.Unix u 0, None))
          /\ time.monotonic (time.Unix u 0) = false
          /\ time.Unix_of (time.Unix u 0) = u
          /\ time.nsec (time.Unix u 0) = 0).
Proof.
  intros env s. unfold getBlockTime, big_SetString10. split; [|split].
  - destruct (strconv.signed_decimal s) as [b|]; [|reflexivity].
    unfold_go. destruct (ethClient_BlockByNumber env b); reflexivity.
  - intros ->. reflexivity.
  - intros n u -> Hrpc Hu. rewrite strconv_facts.signed_decimal_Itoa.
    assert (Hint : GoInt.is_int u)
      by (unfold GoInt.is_int, GoInt.minInt, GoInt.maxInt in *; lia).
    split; [ | split; [ | split ] ].
    + unfold_go. rewrite Hrpc. unfold GoInt.of_uint64.
      rewrite wrap_small by assumption. reflexivity.
    + reflexivity.
    + rewrite Unix_fields. unfold time.Unix_of.
      rewrite sec_plain by lia. unfold GoInt.add, time.internalToUnix.
      rewrite wrap_add_l.
      replace (u + time.unixToInternal + - time.unixToInternal) with u by lia.
      apply wrap_small. assumption.
    + reflexivity.
Qed.

Lemma block_time_lookup_witness :
  getBlockTime (Sample.passes_behind 0%nat) "18000000"
  = ([EvBlockByNumber 18000000], Normal (time.Unix 1700000000 0, None)).
Proof.
  refine (proj1 (proj2 (proj2 (block_time_lookup (Sample.passes_behind 0%nat) "18000000"))
            18000000 1700000000 eq_refl eq_refl _)).
  unfold GoInt.maxInt. lia.
Defined.

(* ===================================================================== *)
(** ** Further properties: the text of the queries *)
(* ===================================================================== *)

Section QueryText.

Lemma append_inv_head (p a b : string) : (p ++ a)%string = (p ++ b)%string -> a = b.
Proof. induction p as [|c p IH]; simpl; [auto | intros [= H]; auto]. Qed.

Lemma numeric_of_uint (d : Decimal.uint) : numeric (NilEmpty.string_of_uint d) = true.
Proof. induction d; simpl; auto. Qed.

Lemma numeric_Itoa (n : Z) : numeric (strconv.Itoa n) = true.
Proof.
  destruct n as [|p|p]; [reflexivity | |];
    unfold strconv.Itoa; cbn [Z.to_int NilZero.string_of_int];
    rewrite strconv_facts.string_of_to_uint.
  - apply numeric_of_uint.
  - cbn [numeric]. rewrite numeric_of_uint. reflexivity.
Qed.

(** A numeric text ends at the first character that is not numeric. *)
Lemma numeric_delimited (c : ascii) : numeric_char c = false ->
  forall a a' r r',
    numeric a = true -> numeric a' = true ->
    (a ++ String c r)%string = (a' ++ String c r')%string ->
    a = a' /\ r = r'.
Proof.
  intros Hc. induction a as [|x a IH]; destruct a' as [|y a']; simpl;
    intros r r' Ha Ha' H.
  - injection H as ->. auto.
  - injection H as -> _. apply andb_prop in Ha'. destruct Ha'. congruence.
  - injection H as -> _. apply andb_prop in Ha. destruct Ha. congruence.
  - injection H as -> H. apply andb_prop in Ha. apply andb_prop in Ha'.
    destruct (IH a' r r') as [-> ->]; tauto.
Qed.

Lemma Itoa_inj (n m : Z) : strconv.Itoa n = strconv.Itoa m -> n = m.
Proof.
  intros H. pose proof (strconv_facts.signed_decimal_Itoa n) as Hn.
  rewrite H, strconv_facts.signed_decimal_Itoa in Hn. congruence.
Qed.

End QueryText.

(** X6.  The request bodies identify what they ask for: two record queries
    are equal only for the same validator and the same nonce, two
    latest-nonce queries only for the same validator, and a latest-nonce
    query is never equal to a record query. *)
Theorem queries_identify_their_arguments :
  (forall v n v' n',
      getStakeUpdateQuery v n = getStakeUpdateQuery v' n' -> v = v' /\ n = n')
  /\ (forall v v', getLatestNonceQuery v = getLatestNonceQuery v' -> v = v')
  /\ (forall v v' n, getLatestNonceQuery v <> getStakeUpdateQuery v' n).
Proof.
  split; [|split].
  - intros v n v' n'. unfold getStakeUpdateQuery. intros [= H].
    repeat (apply append_inv_head in H).
    change (", nonce: " ++ ?x)%string with (String "," (" nonce: " ++ x)%string) in H.
    apply (numeric_delimited ",") in H;
      [|reflexivity | apply numeric_Itoa | apply numeric_Itoa].
    destruct H as [Hv H]. apply Itoa_inj in Hv.
    cbn [append] in H.
    repeat match type of H with
           | String ?c _ = String ?c _ => injection H as H
           end.
    apply (numeric_delimited "}") in H;
      [|reflexivity | apply numeric_Itoa | apply numeric_Itoa].
    destruct H as [Hn _]. apply Itoa_inj in Hn. auto.
  - intros v v'. unfold getLatestNonceQuery. intros [= H].
    repeat (apply append_inv_head in H).
    change ("}){" ++ ?x)%string with (String "}" ("){" ++ x)%string) in H.
    apply (numeric_delimited "}") in H;
      [|reflexivity | apply numeric_Itoa | apply numeric_Itoa].
    destruct H as [Hv _]. apply Itoa_inj in Hv. exact Hv.
  - intros v v' n. unfold getLatestNonceQuery, getStakeUpdateQuery. intros H.
    injection H as H. repeat (apply append_inv_head in H). discriminate H.
Qed.

Lemma queries_identify_their_arguments_witness :
  getStakeUpdateQuery 7 4 = getStakeUpdateQuery (3 + 4) (2 + 2)
  /\ 7 = 3 + 4 /\ 4 = 2 + 2.
Proof.
  split; [reflexivity|].
  exact (proj1 queries_identify_their_arguments 7 4 (3 + 4) (2 + 2) eq_refl).
Defined.

(* ===================================================================== *)
(** ** Further properties: one pass of the loop *)
(* ===================================================================== *)

Lemma observe_bind {A B C} (f : Event -> option C) (m : M A) (k : A -> M B) :
  observe f (trace (bind m k)) =
  observe f (trace m)
  ++ match outcome m with Normal a => observe f (trace (k a)) | _ => [] end.
Proof.
  rewrite trace_bind, observe_app.
  destruct (outcome m); reflexivity.
Qed.

(** What a pass whose comparison succeeds shows to an observer. *)
Lemma observe_iteration_ahead {C} (f : Event -> option C) (g : Globals) (env : Env)
  (vars : LoopVars) (dst : Z) :
  outcome (getHeimdallValidatorNonce g env (validatorId vars)) = Normal (dst, None) ->
  ethereumNonce vars > dst ->
  observe f (trace (iteration g env vars)) =
    observe f [EvHttpGet (validator_url g (validatorId vars));
               comparison_line (ethereumNonce vars) dst]
    ++ observe f (trace (processStakeUpdate g env (validatorId vars) (GoInt.add dst 1)))
    ++ match outcome (processStakeUpdate g env (validatorId vars) (GoInt.add dst 1)) with
       | Normal err => observe f (trace (after_correction vars err))
       | _ => []
       end.
Proof.
  intros H Hgt. rewrite (iteration_compared g env vars dst H).
  destruct (Z.gtb_spec (ethereumNonce vars) dst); [|lia].
  rewrite !observe_bind. reflexivity.
Qed.

(** The requests of one run of [processStakeUpdate]. *)
Lemma budget_processStakeUpdate (g : Globals) (env : Env) (v n : Z) :
  gets (trace (processStakeUpdate g env v n)) = []
  /\ (posts (trace (processStakeUpdate g env v n)) = []
      \/ posts (trace (processStakeUpdate g env v n))
         = [(PolygonSubGraphUrl g, getStakeUpdateQuery v n)])
  /\ (List.length (block_lookups (trace (processStakeUpdate g env v n))) <= 1)%nat
  /\ (List.length (execs (trace (processStakeUpdate g env v n))) <= 1)%nat.
Proof.
  unfold processStakeUpdate. unfold_go.
  repeat (branch; cbn -[getStakeUpdateQuery heimdallcli_args]);
    repeat split; auto.
Qed.

(** X7.  In any environment one pass of the loop sends exactly one GET, to
    the validator address of the destination ledger; at most one POST, which
    is then the record query for the correction the pass announces; asks the
    origin chain for at most one block; and starts at most one subprocess. *)
Theorem pass_request_budget :
  forall (g : Globals) (env : Env) (vars : LoopVars),
    gets (trace (iteration g env vars)) = [validator_url g (validatorId vars)]
    /\ (posts (trace (iteration g env vars)) = []
        \/ exists n,
             corrections (trace (iteration g env vars)) = [(validatorId vars, n)]
             /\ posts (trace (iteration g env vars))
                = [(PolygonSubGraphUrl g, getStakeUpdateQuery (validatorId vars) n)])
    /\ (List.length (block_lookups (trace (iteration g env vars))) <= 1)%nat
    /\ (List.length (execs (trace (iteration g env vars))) <= 1)%nat.
Proof.
  intros g env vars.
  destruct (iteration_cases g env vars) as [(n & e & _ & E)|(dst & Hd & E)].
  - rewrite E. cbn. repeat split; auto.
  - destruct (Z.gtb_spec (ethereumNonce vars) dst) as [Hgt|Hle].
    + clear E. assert (Hgt' : ethereumNonce vars > dst) by lia.
      destruct (budget_processStakeUpdate g env (validatorId vars) (GoInt.add dst 1))
        as (Hg & Hp & Hb & Hx).
      unfold gets, posts, block_lookups, execs in *.
      rewrite !(observe_iteration_ahead _ g env vars dst Hd Hgt').
      rewrite Hg. rewrite !length_app.
      assert (Htail : forall {C} (f : Event -> option C),
                 (forall d, f (EvSleep d) = None) ->
                 (forall l, f (EvPrintln
                                 (VString "Error processing stake update for validator: "
                                    :: l)) = None) ->
                 match outcome (processStakeUpdate g env (validatorId vars)
                                  (GoInt.add dst 1)) with
                 | Normal err => observe f (trace (after_correction vars err))
                 | _ => []
                 end = []).
      { intros C f Hs Hl.
        destruct (outcome (processStakeUpdate g env (validatorId vars) (GoInt.add dst 1)))
          as [[e|]|msg|c]; cbn; rewrite ?Hs, ?Hl; reflexivity. }
      rewrite !Htail by reflexivity.
      cbn [observe flat_map is_get is_post is_block_lookup is_exec comparison_line
           app List.length].
      rewrite !app_nil_r.
      split; [reflexivity|]. split; [|split; cbn [List.length]; lia].
      destruct Hp as [Hp|Hp]; [left; exact Hp | right].
      exists (GoInt.add dst 1). split; [|exact Hp].
      apply (corrections_iteration_ahead g env vars dst Hd Hgt').
    + rewrite E. cbn. repeat split; auto.
Qed.

(** X8.  When the fetch of the destination nonce fails, at the transport,
    while the body is read, or in the decoder, the pass does nothing else: it
    prints that error, sleeps one second and ends normally, without a request
    to the indexed graph. *)
Theorem destination_fetch_failure :
  forall (g : Globals) (env : Env) (vars : LoopVars) (e : error),
    (http_Get env (validator_url g (validatorId vars)) = inl e
     \/ (exists data,
           http_Get env (validator_url g (validatorId vars))
           = inr (mkHttpResponse (data, Some e)))
     \/ http_Get env (validator_url g (validatorId vars))
        = inr (mkHttpResponse (Malformed e, None))) ->
    iteration g env vars =
      ([EvHttpGet (validator_url g (validatorId vars));
        EvPrintln [VString "Error getting heimdall nonce for validator: ";
                   VInt (validatorId vars); VError e];
        EvSleep time.Second], Normal vars).
Proof.
  intros g env vars e H.
  apply (iteration_fetch_error g env vars 0 e).
  unfold getHeimdallValidatorNonce. fold (validator_url g (validatorId vars)).
  destruct H as [H|[[data H]|H]]; rewrite H; reflexivity.
Qed.

Lemma destination_fetch_failure_witness :
  iteration Sample.g Sample.env_graph_down {| validatorId := 7; ethereumNonce := 5 |}
  = ([EvHttpGet "http://heimdall/staking/validator/7";
      EvPrintln [VString "Error getting heimdall nonce for validator: ";
                 VInt 7; VError (External "connection refused")];
      EvSleep time.Second],
     Normal {| validatorId := 7; ethereumNonce := 5 |}).
Proof.
  exact (destination_fetch_failure Sample.g Sample.env_graph_down
           {| validatorId := 7; ethereumNonce := 5 |} (External "connection refused")
           (or_introl eq_refl)).
Defined.

(** The sleep of a pass. *)
Lemma sleeps_iteration (g : Globals) (env : Env) (vars : LoopVars) :
  sleeps (trace (iteration g env vars)) =
  match outcome (iteration g env vars) with
  | Normal _ => [pass_sleep g env vars]
  | _ => []
  end.
Proof.
  unfold pass_sleep, pass_error.
  destruct (iteration_cases g env vars) as [(n & e & Hd & E)|(dst & Hd & E)].
  - rewrite E, Hd. reflexivity.
  - rewrite Hd. destruct (Z.gtb_spec (ethereumNonce vars) dst) as [Hgt|Hle].
    + assert (Hgt' : ethereumNonce vars > dst) by lia.
      unfold sleeps. rewrite (observe_iteration_ahead _ g env vars dst Hd Hgt').
      fold (sleeps (trace (processStakeUpdate g env (validatorId vars) (GoInt.add dst 1)))).
      rewrite sleeps_processStakeUpdate, E, bind_normal, outcome_bind.
      destruct (outcome (processStakeUpdate g env (validatorId vars) (GoInt.add dst 1)))
        as [[e|]|msg|c]; reflexivity.
    + rewrite E. reflexivity.
Qed.



(* ===================================================================== *)
(** ** Further properties: the loop as a whole *)
(* ===================================================================== *)

(** X9.  The loop has no exit of its own: after any number of passes the
    process is still looping with the variables it started with, unless some
    pass found the source ahead and got an empty lookup, in which case it has
    panicked.  It never returns and never calls [os.Exit]. *)
Theorem loop_only_stops_by_panic :
  forall (g : Globals) (envs : nat -> Env) (vars : LoopVars) (fuel i : nat),
    outcome (loop g envs i fuel vars) = Normal (Looping vars)
    \/ (exists k dst,
          (i <= k < i + fuel)%nat
          /\ outcome (getHeimdallValidatorNonce g (envs k) (validatorId vars))
             = Normal (dst, None)
          /\ ethereumNonce vars > dst
          /\ record_lookup g (envs k) (validatorId vars) (GoInt.add dst 1) []
          /\ outcome (loop g envs i fuel vars)
             = Panic "runtime error: index out of range [0] with length 0").
Proof.
  intros g envs vars fuel. induction fuel as [|fuel IH]; intros i.
  - left. reflexivity.
  - cbn [loop]. rewrite outcome_bind.
    destruct (iteration_outcome g (envs i) vars)
      as [Hn|(dst & Hd & Hgt & Hrec & Hp)].
    + rewrite Hn. destruct (IH (S i)) as [Hl|(k & dst & Hk & Hrest)].
      * left. exact Hl.
      * right. exists k, dst. split; [lia | exact Hrest].
    + right. exists i, dst. rewrite Hp. split; [lia | auto].
Qed.

(** The exit status of the loop is never 0 or 1. *)
Lemma loop_exit_status (g : Globals) (envs : nat -> Env) (vars : LoopVars) :
  forall fuel i,
    exit_status (outcome (loop g envs i fuel vars)) = None
    \/ exit_status (outcome (loop g envs i fuel vars)) = Some 2.
Proof.
  induction fuel as [|fuel IH]; intros i.
  - left. reflexivity.
  - cbn [loop]. rewrite outcome_bind.
    destruct (iteration_outcome g (envs i) vars) as [Hn|(dst & _ & _ & _ & Hp)].
    + rewrite Hn. apply IH.
    + rewrite Hp. right. reflexivity.
Qed.

(** X10.  Every pass that ends sleeps exactly once: as long as the loop has
    not panicked, its sleeps are, pass by pass, one second for a pass that got
    an error value and eighteen seconds for any other pass. *)
Theorem loop_sleeps_once_per_pass :
  forall (g : Globals) (envs : nat -> Env) (vars : LoopVars) (fuel i : nat)
         (st : Status),
    outcome (loop g envs i fuel vars) = Normal st ->
    sleeps (trace (loop g envs i fuel vars))
    = List.map (fun k => pass_sleep g (envs k) vars) (List.seq i fuel).
Proof.
  intros g envs vars fuel. induction fuel as [|fuel IH]; intros i st H.
  - reflexivity.
  - cbn [loop] in *. rewrite outcome_bind in H.
    unfold sleeps. rewrite observe_bind.
    fold (sleeps (trace (iteration g (envs i) vars))).
    rewrite sleeps_iteration.
    destruct (iteration_invariant g (envs i) vars) as (_ & _ & Hv).
    destruct (outcome (iteration g (envs i) vars)) as [vars'|msg|c];
      try discriminate.
    rewrite (Hv vars' eq_refl) in *.
    cbn [List.seq List.map app]. f_equal. exact (IH (S i) st H).
Qed.

Lemma loop_sleeps_once_per_pass_witness :
  sleeps (trace (loop Sample.g Sample.passes_behind 0 3
                   {| validatorId := 7; ethereumNonce := 5 |}))
  = [18 * time.Second; 18 * time.Second; 18 * time.Second].
Proof.
  exact (loop_sleeps_once_per_pass Sample.g Sample.passes_behind
           {| validatorId := 7; ethereumNonce := 5 |} 3 0
           (Looping {| validatorId := 7; ethereumNonce := 5 |}) eq_refl).
Defined.

(** X11.  Nothing is carried from one pass to the next: as long as the loop
    has not panicked, its trace is the concatenation of the traces of the
    single passes, each run on the variables the loop started with. *)
Theorem passes_are_independent :
  forall (g : Globals) (envs : nat -> Env) (vars : LoopVars) (fuel i : nat)
         (st : Status),
    outcome (loop g envs i fuel vars) = Normal st ->
    trace (loop g envs i fuel vars)
    = List.flat_map (fun k => trace (iteration g (envs k) vars)) (List.seq i fuel).
Proof.
  intros g envs vars fuel. induction fuel as [|fuel IH]; intros i st H.
  - reflexivity.
  - cbn [loop] in *. rewrite outcome_bind in H. rewrite trace_bind.
    cbn [List.seq flat_map]. f_equal.
    destruct (iteration_invariant g (envs i) vars) as (_ & _ & Hv).
    destruct (outcome (iteration g (envs i) vars)) as [vars'|msg|c];
      try discriminate.
    rewrite (Hv vars' eq_refl) in *. exact (IH (S i) st H).
Qed.

Lemma passes_are_independent_witness :
  trace (loop Sample.g Sample.passes_behind 0 2
           {| validatorId := 7; ethereumNonce := 5 |})
  = trace (iteration Sample.g (Sample.passes_behind 0%nat)
             {| validatorId := 7; ethereumNonce := 5 |})
    ++ trace (iteration Sample.g (Sample.passes_behind 1%nat)
                {| validatorId := 7; ethereumNonce := 5 |})
    ++ [].
Proof.
  exact (passes_are_independent Sample.g Sample.passes_behind
           {| validatorId := 7; ethereumNonce := 5 |} 2 0
           (Looping {| validatorId := 7; ethereumNonce := 5 |}) eq_refl).
Defined.






(** X14.  While the destination ledger answers, without an error field,
    with a nonce that is not below the source nonce, the loop only polls: it
    sends nothing to the indexed graph, asks the origin chain for no block,
    starts no subprocess, sleeps eighteen seconds in every pass and keeps
    running. *)
Theorem idle_when_in_sync :
  forall (g : Globals) (envs : nat -> Env) (v src : Z) (fuel i : nat),
    in_sync g envs v src ->
    outcome (loop g envs i fuel {| validatorId := v; ethereumNonce := src |})
      = Normal (Looping {| validatorId := v; ethereumNonce := src |})
    /\ posts (trace (loop g envs i fuel {| validatorId := v; ethereumNonce := src |})) = []
    /\ block_lookups
         (trace (loop g envs i fuel {| validatorId := v; ethereumNonce := src |})) = []
    /\ execs (trace (loop g envs i fuel {| validatorId := v; ethereumNonce := src |})) = []
    /\ sleeps (trace (loop g envs i fuel {| validatorId := v; ethereumNonce := src |}))
       = List.repeat (18 * time.Second) fuel.
Proof.
  intros g envs v src fuel i Hsync. revert i.
  induction fuel as [|fuel IH]; intros i.
  - repeat split.
  - destruct (Hsync i) as (r & Hget & Herr & Hle).
    assert (E : iteration g (envs i) {| validatorId := v; ethereumNonce := src |}
                = ([EvHttpGet (validator_url g v);
                    comparison_line src (Validator.Nonce (Validator.result r));
                    EvSleep (18 * time.Second)],
                   Normal {| validatorId := v; ethereumNonce := src |})).
    { rewrite (iteration_compared g (envs i) _ (Validator.Nonce (Validator.result r))).
      - cbn [ethereumNonce validatorId].
        destruct (Z.gtb_spec src (Validator.Nonce (Validator.result r)));
          [lia | reflexivity].
      - cbn [validatorId].
        rewrite (getHeimdallValidatorNonce_decoded g (envs i) v r Hget), Herr.
        reflexivity. }
    cbn [loop]. rewrite E, bind_normal.
    destruct (IH (S i)) as (Ho & Hp & Hb & Hx & Hs).
    unfold posts, block_lookups, execs, sleeps in *. cbn [trace outcome fst snd].
    change (?a :: ?b :: ?c :: ?l) with ([a; b; c] ++ l).
    rewrite !observe_app, Hp, Hb, Hx, Hs. repeat split. exact Ho.
Qed.

Lemma idle_when_in_sync_witness :
  sleeps (trace (loop Sample.g Sample.passes_in_sync 0 4
                   {| validatorId := 7; ethereumNonce := 4 |}))
  = List.repeat (18 * time.Second) 4.
Proof.
  refine (proj2 (proj2 (proj2 (proj2
            (idle_when_in_sync Sample.g Sample.passes_in_sync 7 4 4 0 _))))).
  intros i. exists (Sample.validator 4 "").
  split; [reflexivity|]. split; [reflexivity|]. simpl. lia.
Defined.

(* ===================================================================== *)
(** ** Further properties: the startup *)
(* ===================================================================== *)

(** The value of the source-nonce fetch always fits an [int], and is 0
    whenever it comes with an error. *)
Lemma getEthereumValidatorNonce_int (g : Globals) (env : Env) (v n : Z)
  (t : list Event) (err : option error) :
  getEthereumValidatorNonce g env v = (t, Normal (n, err)) ->
  GoInt.is_int n /\ (err <> None -> n = 0).
Proof.
  assert (H0 : GoInt.is_int 0)
    by (unfold GoInt.is_int, GoInt.minInt, GoInt.maxInt; lia).
  unfold getEthereumValidatorNonce.
  destruct (querySubGraph_total env (PolygonSubGraphUrl g) (getLatestNonceQuery v))
    as (t' & data & e & -> & _ & _).
  rewrite bind_normal.
  destruct e as [e|]; [intros [= _ <- <-]; auto|].
  destruct data as [e|[[|first rest]]]; unfold_go; simpl;
    try (intros [= _ <- <-]; split; [assumption | congruence]).
  destruct (strconv.Atoi (Stake.Nonce first)) as [m [e|]] eqn:Ha; simpl;
    intros [= _ <- <-]; split; auto; try congruence.
  apply (strconv_facts.Atoi_is_int _ _ Ha).
Qed.

(** X15.  Whenever [main] is in its loop, the validator id is the [int]
    that the first argument denotes in decimal, and the source nonce is an
    [int] too: the value the startup fetch returned without an error.  A nonce
    text that does not fit an [int] never reaches the loop. *)
Theorem loop_variables_are_ints :
  forall (g : Globals) (w : World) (fuel : nat) (st : LoopVars),
    outcome (main g w fuel) = Normal (Looping st) ->
    (exists s, nth_error (os_Args w) 1 = Some s
               /\ strconv.Atoi s = (validatorId st, None))
    /\ GoInt.is_int (validatorId st)
    /\ GoInt.is_int (ethereumNonce st)
    /\ outcome (getEthereumValidatorNonce g (at_startup w) (validatorId st))
       = Normal (ethereumNonce st, None).
Proof.
  intros g w fuel st H.
  destruct (nth_error (os_Args w) 1) as [s|] eqn:Hargs;
    [|unfold main, index in H; rewrite Hargs in H; discriminate].
  destruct (strconv.Atoi s) as [v [e|]] eqn:Hatoi;
    [unfold main, index in H; rewrite Hargs in H; unfold_go; simpl in H;
     rewrite Hatoi in H; discriminate|].
  destruct (ethclient_Dial w (EthereumRPCUrl g)) as [e|] eqn:Hdial;
    [unfold main, index in H; rewrite Hargs in H; unfold_go; simpl in H;
     rewrite Hatoi in H; simpl in H; rewrite Hdial in H; discriminate|].
  rewrite (main_started g w fuel s v Hargs Hatoi Hdial) in H.
  destruct (getEthereumValidatorNonce_total g (at_startup w) v)
    as (t & n & err & E & _).
  rewrite E, !bind_normal in H. cbn [snd fst outcome] in H.
  destruct (getEthereumValidatorNonce_int g (at_startup w) v n t err E) as [Hn _].
  destruct err as [e|]; [discriminate|].
  destruct (loop_invariant g (at_iteration w)
              {| validatorId := v; ethereumNonce := n |} fuel 0%nat) as (_ & _ & Hst).
  specialize (Hst _ H). injection Hst as ->. cbn [validatorId ethereumNonce].
  split; [exists s; auto|].
  split; [apply (strconv_facts.Atoi_is_int _ _ Hatoi)|].
  split; [exact Hn|]. rewrite E. reflexivity.
Qed.

Lemma loop_variables_are_ints_witness :
  GoInt.is_int (validatorId {| validatorId := 7; ethereumNonce := 4 |})
  /\ GoInt.is_int (ethereumNonce {| validatorId := 7; ethereumNonce := 4 |}).
Proof.
  destruct (loop_variables_are_ints Sample.g Sample.world_young_block 2
              {| validatorId := 7; ethereumNonce := 4 |} eq_refl)
    as (_ & Hv & Hn & _).
  exact (conj Hv Hn).
Defined.

(** X16.  Started without the validator id argument (and with a readable
    [.env]), the process does not print a usage message: reading
    [os.Args[1]] panics before anything else is done, and the process ends
    with status 2. *)
Theorem missing_argument_panics :
  forall (w : World) (fuel : nat),
    godotenv_Load w ".env" = None ->
    (List.length (os_Args w) < 2)%nat ->
    program w fuel =
      ([EvLoadEnv ".env"],
       Panic ("runtime error: index out of range [1] with length "
              ++ strconv.Itoa (Z.of_nat (List.length (os_Args w))))%string)
    /\ exit_status (outcome (program w fuel)) = Some 2.
Proof.
  intros w fuel Henv Hlen.
  assert (Hnth : nth_error (os_Args w) 1 = None)
    by (apply nth_error_None; lia).
  unfold program, init. rewrite Henv. unfold main, index. rewrite Hnth.
  split; reflexivity.
Qed.

Lemma missing_argument_panics_witness :
  program Sample.world_no_argument 3
  = ([EvLoadEnv ".env"], Panic "runtime error: index out of range [1] with length 1").
Proof.
  refine (proj1 (missing_argument_panics Sample.world_no_argument 3 eq_refl _)).
  simpl. lia.
Defined.

(** X17.  The process ends with status 1 exactly when the [.env] file cannot
    be loaded, or the first argument is not a decimal [int], or the origin
    chain client cannot be dialled; and then it ends before any HTTP request
    is sent. *)
Theorem fatal_exit_conditions :
  forall (w : World) (fuel : nat),
    (exit_status (outcome (program w fuel)) = Some 1 <->
     godotenv_Load w ".env" <> None
     \/ (godotenv_Load w ".env" = None
         /\ exists s, nth_error (os_Args w) 1 = Some s
                      /\ (snd (strconv.Atoi s) <> None
                          \/ ethclient_Dial w (os_Getenv w "ethereum_rpc_url") <> None)))
    /\ (exit_status (outcome (program w fuel)) = Some 1 ->
        gets (trace (program w fuel)) = [] /\ posts (trace (program w fuel)) = []).
Proof.
  intros w fuel. unfold program, init.
  destruct (godotenv_Load w ".env") as [e|] eqn:Henv.
  - split; [|split; reflexivity].
    split; [intros _; left; discriminate | intros _; reflexivity].
  - unfold_go. cbn [app].
    set (g := {| HeimdallRestUrl := os_Getenv w "heimdall_rest_url";
                 PolygonSubGraphUrl := os_Getenv w "polygon_sub_graph_url";
                 HeimdallChainId := os_Getenv w "heimdall_chain_id";
                 EthereumRPCUrl := os_Getenv w "ethereum_rpc_url" |}).
    destruct (nth_error (os_Args w) 1) as [s|] eqn:Hargs.
    + destruct (strconv.Atoi s) as [v [e|]] eqn:Hatoi.
      * assert (E : main g w fuel
                    = ([EvLogFatal [VString "Invalid validator id"]], OsExit 1)).
        { unfold main, index. rewrite Hargs. unfold_go. simpl. rewrite Hatoi.
          reflexivity. }
        rewrite E. cbn. split; [|split; reflexivity].
        split; [|reflexivity]. intros _. right. split; [reflexivity|].
        exists s. split; [reflexivity|]. left. rewrite ?Hatoi. cbn. discriminate.
      * destruct (ethclient_Dial w (os_Getenv w "ethereum_rpc_url")) as [e|] eqn:Hdial.
        -- assert (E : main g w fuel
                       = ([EvDial (EthereumRPCUrl g); EvLogFatal [VError e]], OsExit 1)).
           { unfold main, index. rewrite Hargs. unfold_go. simpl. rewrite Hatoi.
             simpl. rewrite Hdial. reflexivity. }
           rewrite E. cbn. split; [|split; reflexivity].
           split; [|reflexivity]. intros _. right. split; [reflexivity|].
           exists s. split; [reflexivity|]. right. discriminate.
        -- assert (Hne : exit_status (outcome (main g w fuel)) <> Some 1).
           { rewrite (main_started g w fuel s v Hargs Hatoi Hdial).
             destruct (getEthereumValidatorNonce_total g (at_startup w) v)
               as (t & n & err & E & _).
             rewrite E, !bind_normal. cbn [snd fst outcome].
             destruct err as [e|]; [discriminate|].
             destruct (loop_exit_status g (at_iteration w)
                         {| validatorId := v; ethereumNonce := n |} fuel 0%nat)
               as [Hl|Hl]; rewrite Hl; discriminate. }
           destruct (main g w fuel) as [t o]. cbn [outcome snd] in *.
           split; [|intros H; contradiction].
           split; [intros H; contradiction|].
           intros [H|(_ & s' & [= <-] & [H|H])]; [congruence | |congruence].
           rewrite Hatoi in H. cbn in H. congruence.
    + assert (E : main g w fuel
                  = ([], Panic ("runtime error: index out of range [1] with length "
                                ++ strconv.Itoa (Z.of_nat (List.length (os_Args w))))%string)).
      { unfold main, index. rewrite Hargs. reflexivity. }
      rewrite E. cbn. split; [|discriminate].
      split; [discriminate|].
      intros [H|(_ & s' & H & _)]; congruence.
Qed.

Lemma fatal_exit_conditions_witness :
  exit_status (outcome (program Sample.world_no_dotenv 3)) = Some 1.
Proof.
  apply (proj2 (proj1 (fatal_exit_conditions Sample.world_no_dotenv 3))).
  left. discriminate.
Defined.

(** X18.  The process ends with status 0 in one case only: [.env] was
    loaded, the argument was a decimal [int], the origin chain client was
    dialled, and the source-nonce fetch at startup returned an error.  Once
    the loop is entered the process never ends with status 0. *)
Theorem clean_exit_condition :
  forall (w : World) (fuel : nat),
    exit_status (outcome (program w fuel)) = Some 0 <->
    godotenv_Load w ".env" = None
    /\ ethclient_Dial w (os_Getenv w "ethereum_rpc_url") = None
    /\ exists s v n e,
         nth_error (os_Args w) 1 = Some s
         /\ strconv.Atoi s = (v, None)
         /\ outcome
              (getEthereumValidatorNonce
                 {| HeimdallRestUrl := os_Getenv w "heimdall_rest_url";
                    PolygonSubGraphUrl := os_Getenv w "polygon_sub_graph_url";
                    HeimdallChainId := os_Getenv w "heimdall_chain_id";
                    EthereumRPCUrl := os_Getenv w "ethereum_rpc_url" |}
                 (at_startup w) v)
            = Normal (n, Some e).
Proof.
  intros w fuel. unfold program, init.
  destruct (godotenv_Load w ".env") as [e|] eqn:Henv.
  - split; [discriminate | intros [H _]; discriminate].
  - unfold_go. cbn [app].
    set (g := {| HeimdallRestUrl := os_Getenv w "heimdall_rest_url";
                 PolygonSubGraphUrl := os_Getenv w "polygon_sub_graph_url";
                 HeimdallChainId := os_Getenv w "heimdall_chain_id";
                 EthereumRPCUrl := os_Getenv w "ethereum_rpc_url" |}).
    destruct (nth_error (os_Args w) 1) as [s|] eqn:Hargs.
    + destruct (strconv.Atoi s) as [v [e|]] eqn:Hatoi.
      * assert (E : main g w fuel
                    = ([EvLogFatal [VString "Invalid validator id"]], OsExit 1)).
        { unfold main, index. rewrite Hargs. unfold_go. simpl. rewrite Hatoi.
          reflexivity. }
        rewrite E. cbn. split; [discriminate|].
        intros (_ & _ & s' & v' & n & e' & [= <-] & Ha & _). congruence.
      * destruct (ethclient_Dial w (os_Getenv w "ethereum_rpc_url")) as [e|] eqn:Hdial.
        -- assert (E : main g w fuel
                       = ([EvDial (EthereumRPCUrl g); EvLogFatal [VError e]], OsExit 1)).
           { unfold main, index. rewrite Hargs. unfold_go. simpl. rewrite Hatoi.
             simpl. rewrite Hdial. reflexivity. }
           rewrite E. cbn. split; [discriminate|].
           intros (_ & H & _). discriminate.
        -- destruct (getEthereumValidatorNonce_total g (at_startup w) v)
             as (t & n & err & E & _).
           assert (Hm : outcome (main g w fuel)
                        = match err with
                          | Some _ => Normal Returned
                          | None =>
                              outcome (loop g (at_iteration w) 0 fuel
                                         {| validatorId := v; ethereumNonce := n |})
                          end).
           { rewrite (main_started g w fuel s v Hargs Hatoi Hdial).
             rewrite E, !bind_normal. cbn [snd fst outcome].
             destruct err; reflexivity. }
           destruct (main g w fuel) as [tm om]. cbn [outcome snd fst] in *.
           subst om.
           destruct err as [e|].
           ++ split; [|reflexivity]. intros _.
              split; [reflexivity|]. split; [reflexivity|].
              exists s, v, n, e. rewrite E. auto.
           ++ split.
              ** intros H.
                 destruct (loop_exit_status g (at_iteration w)
                             {| validatorId := v; ethereumNonce := n |} fuel 0%nat)
                   as [Hl|Hl]; rewrite Hl in H; discriminate.
              ** intros (_ & _ & s' & v' & n' & e' & [= <-] & Ha & Hf).
                 rewrite Hatoi in Ha. injection Ha as <-.
                 rewrite E in Hf. discriminate.
    + assert (E : main g w fuel
                  = ([], Panic ("runtime error: index out of range [1] with length "
                                ++ strconv.Itoa (Z.of_nat (List.length (os_Args w))))%string)).
      { unfold main, index. rewrite Hargs. reflexivity. }
      rewrite E. cbn. split; [discriminate|].
      intros (_ & _ & s' & v' & n & e' & H & _). discriminate.
Qed.

Lemma clean_exit_condition_witness :
  exit_status (outcome (program Sample.world_graph_down 3)) = Some 0.
Proof.
  apply (proj2 (clean_exit_condition Sample.world_graph_down 3)).
  split; [reflexivity|]. split; [reflexivity|].
  exists "7", 7, 0, (External "connection refused"). repeat split.
Defined.

(** X19.  Unlike the record lookup, the source-nonce fetch cannot panic: in
    every environment it returns, after at most one request (the latest-nonce
    query to the indexed graph), a value that fits an [int], which is 0
    whenever an error comes with it. *)
Theorem source_fetch_always_returns :
  forall (g : Globals) (env : Env) (v : Z),
    exists t n err,
      getEthereumValidatorNonce g env v = (t, Normal (n, err))
      /\ (t = [] \/ t = [EvHttpPost (PolygonSubGraphUrl g) (getLatestNonceQuery v)])
      /\ GoInt.is_int n
      /\ match err with
         | None => t = [EvHttpPost (PolygonSubGraphUrl g) (getLatestNonceQuery v)]
         | Some _ => n = 0
         end.
Proof.
  intros g env v.
  destruct (getEthereumValidatorNonce_total g env v) as (t & n & err & E & Ht & Hn).
  destruct (getEthereumValidatorNonce_int g env v n t err E) as [Hi H0].
  exists t, n, err. repeat split; try assumption; try apply Hi.
  destruct err; [apply H0; discriminate | apply Hn; reflexivity].
Qed.
